(** * CLIP embedding service ([services/clip_service.py])

    A shallow embedding of the three Flask handlers of the service
    ([embed_image], [compare_images], [health]) and of the two image
    resolvers ([get_image_from_url], [get_image_from_base64]).

    - Request bodies are Python objects as [request.json] produces them
      ([json]); a [dict] is a finite map from strings.
    - The numeric part is IEEE 754: embeddings are [float32] arrays, NumPy
      scalar arithmetic on them is binary32 arithmetic, and the Python
      [float] handed to [jsonify] is binary64.  Both are [spec_float]
      with the operations of [SpecFloat] at the two precisions.
    - Library calls whose code is not part of the repository
      ([base64.b64decode], [PIL.Image.open], [requests.get],
      [model.encode], the BLAS routine behind [np.dot]) are fields of a
      [world] record; a [request] holds what [request.json] evaluates
      to.
    - Handlers run in a small exception monad that also records the
      library calls performed.  A raise is either of an instance of
      [Exception], which [except Exception] catches, or of a class
      outside it, which passes through. *)

From Stdlib Require Import ZArith List String Ascii Bool Lia.
From Stdlib Require Import Floats.SpecFloat.
From stdpp Require Import gmap strings pretty.

Set Warnings "-register-all".

Local Open Scope Z_scope.

(** ** NumPy [float32] scalars *)

Module Binary32.
Definition prec : Z := 24.
Definition emax : Z := 128.

Definition add := SFadd prec emax.
Definition mul := SFmul prec emax.
Definition div := SFdiv prec emax.
Definition sqrt := SFsqrt prec emax.

(** The float32 nearest to [m * 2^e]. *)
Definition of_Z2 (m e : Z) : spec_float := binary_normalize prec emax m e false.

Definition zero : spec_float := S754_zero false.
Definition one : spec_float := Eval vm_compute in of_Z2 1 0.
End Binary32.

(** ** Python [float] (binary64) *)

Module Binary64.
Definition prec : Z := 53.
Definition emax : Z := 1024.

Definition add := SFadd prec emax.
Definition mul := SFmul prec emax.
Definition div := SFdiv prec emax.

Definition of_Z2 (m e : Z) : spec_float := binary_normalize prec emax m e false.

(** The literal [100] of [similarity * 100], converted to [float] by
    the multiplication. *)
Definition hundred : spec_float := Eval vm_compute in of_Z2 100 0.
Definition one : spec_float := Eval vm_compute in of_Z2 1 0.
End Binary64.

(** [float(x)] on a [numpy.float32]: every binary32 value is a binary64
    value, so the conversion only renormalises the mantissa. *)
Definition float (x : spec_float) : spec_float :=
  match x with
  | S754_finite s m e => binary_round Binary64.prec Binary64.emax s m e
  | _ => x
  end.

Definition is_finite (x : spec_float) : bool :=
  match x with
  | S754_zero _ | S754_finite _ _ _ => true
  | S754_infinity _ | S754_nan => false
  end.

Definition is_zero (x : spec_float) : bool :=
  match x with
  | S754_zero _ => true
  | _ => false
  end.

(** *** The terms of a dot product *)

(** The product [x * y] before any rounding: sign, mantissa and
    exponent of the exact product, with the IEEE rules of [SFmul] for
    zeros, infinities and NaN. *)
Definition exact_mul (x y : spec_float) : spec_float :=
  match x, y with
  | S754_nan, _ | _, S754_nan => S754_nan
  | S754_infinity sx, S754_infinity sy => S754_infinity (xorb sx sy)
  | S754_infinity sx, S754_finite sy _ _ => S754_infinity (xorb sx sy)
  | S754_finite sx _ _, S754_infinity sy => S754_infinity (xorb sx sy)
  | S754_infinity _, S754_zero _ => S754_nan
  | S754_zero _, S754_infinity _ => S754_nan
  | S754_finite sx _ _, S754_zero sy => S754_zero (xorb sx sy)
  | S754_zero sx, S754_finite sy _ _ => S754_zero (xorb sx sy)
  | S754_zero sx, S754_zero sy => S754_zero (xorb sx sy)
  | S754_finite sx mx ex, S754_finite sy my ey =>
      S754_finite (xorb sx sy) (mx * my) (ex + ey)
  end.

(** The terms [x[i] * y[i]] of the dot product of two arrays, in index
    order. *)
Definition products (a b : list spec_float) : list spec_float :=
  map (fun xy => exact_mul (fst xy) (snd xy)) (combine a b).

(** The quotient of line 87, once [np.dot] has returned [d] and
    [np.linalg.norm] has returned [n1] and [n2]. *)
Definition cosine_quotient (d n1 n2 : spec_float) : spec_float :=
  Binary32.div d (Binary32.mul n1 n2).




(** *** [round(x, ndigits)] on a Python [float] *)

(** The integer nearest to [n / d], ties to the even one ([0 <= n],
    [0 < d]). *)
Definition round_half_even_div (n d : Z) : Z :=
  let q := n / d in
  match 2 * (n mod d) ?= d with
  | Lt => q
  | Gt => q + 1
  | Eq => if Z.even q then q else q + 1
  end.

(** The integer [k] with [k / 10^ndigits] the decimal that CPython's
    [double_round] obtains from [_Py_dg_dtoa] in mode 3 for the finite
    value [m * 2^e]: the exact value scaled by [10^ndigits] and rounded
    to the nearest integer, ties to even. *)
Definition decimal_digits (m : positive) (e : Z) (ndigits : nat) : Z :=
  let scaled := Zpos m * 10 ^ Z.of_nat ndigits in
  match e with
  | Zneg p => round_half_even_div scaled (2 ^ Zpos p)
  | _ => scaled * 2 ^ e
  end.

(** [round(x, ndigits)] for [0 <= ndigits]: NaN and the infinities round
    to themselves; a finite value is rounded to a decimal with [ndigits]
    digits after the point and that decimal is read back as the nearest
    [float] (the correctly rounded quotient [k / 10^ndigits]); a result
    of zero keeps the sign of [x]. *)
Definition py_round (x : spec_float) (ndigits : nat) : spec_float :=
  match x with
  | S754_finite s m e =>
      match decimal_digits m e ndigits with
      | Zpos k =>
          Binary64.div (S754_finite s k 0)
                       (S754_finite false (Z.to_pos (10 ^ Z.of_nat ndigits)) 0)
      | _ => S754_zero s
      end
  | _ => x
  end.

(** [round(similarity * 100, 2)] of line 91. *)
Definition percentage (similarity : spec_float) : spec_float :=
  py_round (Binary64.mul similarity Binary64.hundred) 2.

(** ** Python objects decoded from a JSON body *)

(** What [request.json] yields: [None], [bool], [int], [float], [str],
    [list] and [dict] (string keys).  The same type carries the
    dictionaries handed to [jsonify]. *)
Inductive json : Type :=
| JNull
| JBool (b : bool)
| JInt (n : Z)
| JFloat (x : spec_float)
| JStr (s : string)
| JArr (l : list json)
| JObj (d : gmap string json).

(** ** Exceptions *)

(** Instances of [Exception]: the built-in ones the handlers' own
    expressions raise, and those raised inside library calls
    ([binascii.Error], [PIL.UnidentifiedImageError],
    [requests.RequestException], [werkzeug.exceptions.BadRequest], ...),
    kept as a class name and a message. *)
Inductive exn : Type :=
| KeyError (key : string)
| TypeError (msg : string)
| ValueError (msg : string)
| LibraryError (cls msg : string).

(** [str(e)].  For a [KeyError] it is the [repr] of the missing key (the
    keys looked up here have no quote or escape in them). *)
Definition str (e : exn) : string :=
  match e with
  | KeyError key => "'" +:+ key +:+ "'"
  | TypeError msg | ValueError msg | LibraryError _ msg => msg
  end.

(** How an expression ends: with a value, with a raised instance of
    [Exception], or with a raise of a class that derives from
    [BaseException] only ([KeyboardInterrupt], [SystemExit],
    [GeneratorExit]). *)
Inductive outcome (A : Type) : Type :=
| Return (a : A)
| Raise (e : exn)
| RaiseBase (cls msg : string).
Arguments Return {A} a.
Arguments Raise {A} e.
Arguments RaiseBase {A} cls msg.

(** ** Operators on decoded bodies *)

(** [p in s] on two [str]: [p] occurs in [s]. *)
Fixpoint occurs_in (p s : string) : bool :=
  String.prefix p s ||
  match s with
  | EmptyString => false
  | String _ s' => occurs_in p s'
  end.

Definition type_name (v : json) : string :=
  match v with
  | JNull => "NoneType"
  | JBool _ => "bool"
  | JInt _ => "int"
  | JFloat _ => "float"
  | JStr _ => "str"
  | JArr _ => "list"
  | JObj _ => "dict"
  end.

(** [key in data] for a [str] literal [key]: key membership on a
    [dict], element membership on a [list], substring on a [str], and
    [TypeError] on the other types. *)
Definition contains (key : string) (data : json) : outcome bool :=
  match data with
  | JObj d => Return (bool_decide (is_Some (d !! key)))
  | JArr l =>
      Return (existsb (fun v => match v with
                                | JStr s => String.eqb s key
                                | _ => false
                                end) l)
  | JStr s => Return (occurs_in key s)
  | _ => Raise (TypeError ("argument of type '" +:+ type_name data +:+
                           "' is not iterable"))
  end.

(** [data[key]] for a [str] literal [key]. *)
Definition getitem (data : json) (key : string) : outcome json :=
  match data with
  | JObj d =>
      match d !! key with
      | Some v => Return v
      | None => Raise (KeyError key)
      end
  | JArr _ => Raise (TypeError "list indices must be integers or slices, not str")
  | JStr _ => Raise (TypeError "string indices must be integers, not 'str'")
  | _ => Raise (TypeError ("'" +:+ type_name data +:+
                           "' object is not subscriptable"))
  end.

(** What [np.dot] raises on two 1-D arrays of lengths [n] and [m] that
    differ. *)
Definition shape_error (n m : nat) : exn :=
  ValueError
    ("shapes (" +:+ pretty n +:+ ",) and (" +:+ pretty m +:+
     ",) not aligned: " +:+ pretty n +:+ " (dim 0) != " +:+
     pretty m +:+ " (dim 0)").

(** ** HTTP *)

(** The part of a [requests.Response] the service can observe. *)
Record http_response : Type := {
  status_code : Z;
  content : list Byte.byte
}.

(** What a view function returns: the JSON document and the status. *)
Record response : Type := {
  body : json;
  status : Z
}.

(** [jsonify(d)] alone is a 200 response; [jsonify(d), code] carries
    [code]. *)
Definition jsonify (d : gmap string json) (code : Z) : response :=
  {| body := JObj d; status := code |}.

(** The status of the response a view function returned, if it
    returned. *)
Definition status_of (o : outcome response) : option Z :=
  match o with
  | Return r => Some (status r)
  | _ => None
  end.

(** An incoming request, as far as the handlers look at it: the value of
    [request.json], which raises when the body is not JSON. *)
Record request : Type := {
  request_json : outcome json
}.

(** ** The service *)

Section Service.
Context {Image : Type}.

(** Library calls.  [blas_sum] is the BLAS routine that [np.dot] runs
    on two float32 vectors, as a function of the terms [x[i] * y[i]]:
    in which order it adds them, and where it rounds (each product or
    only the sums; in single or in double precision), is the library
    build's choice and is left open. *)
Record world : Type := {
  b64decode : json -> outcome (list Byte.byte);
  Image_open : list Byte.byte -> outcome Image;
  requests_get : json -> Z -> outcome http_response;
  model_encode : Image -> outcome (list spec_float);
  blas_sum : list spec_float -> spec_float
}.

Inductive event : Type :=
| Call_b64decode (s : json)
| Call_Image_open (data : list Byte.byte)
| Call_requests_get (url : json) (timeout : Z)
| Call_model_encode (image : Image).

(** Computations: the library calls made so far go in and come out,
    with the way the computation ended. *)
Definition M (A : Type) : Type := list event -> outcome A * list event.

Definition ret {A} (a : A) : M A := fun t => (Return a, t).

Definition bind {A B} (c : M A) (k : A -> M B) : M B :=
  fun t =>
    match c t with
    | (Return a, t') => k a t'
    | (Raise e, t') => (Raise e, t')
    | (RaiseBase cls msg, t') => (RaiseBase cls msg, t')
    end.

Definition lift {A} (o : outcome A) : M A := fun t => (o, t).

Definition call {A} (ev : event) (o : outcome A) : M A :=
  fun t => (o, t ++ [ev]).

(** [try: body  except Exception as e: return handler(e)] around a body
    that returns from the function.  A raise outside [Exception] is not
    caught. *)
Definition try_except {A} (body : M A) (handler : exn -> A) : M A :=
  fun t =>
    match body t with
    | (Return a, t') => (Return a, t')
    | (Raise e, t') => (Return (handler e), t')
    | (RaiseBase cls msg, t') => (RaiseBase cls msg, t')
    end.

Notation "'let*' x ':=' c 'in' k" := (bind c (fun x => k))
  (at level 10, x name, c at level 100, k at level 200, only parsing).

Variable W : world.

(** *** NumPy on the embeddings *)

(** [np.dot] on two 1-D float32 arrays: [ValueError] when the lengths
    differ, the BLAS dot product otherwise. *)
Definition np_dot (a b : list spec_float) : outcome spec_float :=
  if Nat.eqb (length a) (length b) then Return (blas_sum W (products a b))
  else Raise (shape_error (length a) (length b)).

(** [np.linalg.norm(x)] with the default [ord] on a real 1-D array is
    [sqrt(x.dot(x))]; for a float32 array the result is a float32. *)
Definition np_linalg_norm (a : list spec_float) : spec_float :=
  Binary32.sqrt (blas_sum W (products a a)).

(** [np.dot(emb1, emb2) / (np.linalg.norm(emb1) * np.linalg.norm(emb2))]
    for two arrays of the same length. *)
Definition cosine_similarity (a b : list spec_float) : spec_float :=
  cosine_quotient (blas_sum W (products a b)) (np_linalg_norm a) (np_linalg_norm b).

(** *** The resolvers *)

Definition get_image_from_url (url : json) : M Image :=
  let* response := call (Call_requests_get url 10) (requests_get W url 10) in
  call (Call_Image_open (content response)) (Image_open W (content response)).

Definition get_image_from_base64 (base64_str : json) : M Image :=
  let* image_data := call (Call_b64decode base64_str) (b64decode W base64_str) in
  call (Call_Image_open image_data) (Image_open W image_data).

Definition encode (image : Image) : M (list spec_float) :=
  call (Call_model_encode image) (model_encode W image).

(** *** [embed_image] *)

(** Lines 49-58: embed the resolved image and build the reply. *)
Definition embed_reply (image : Image) : M response :=
  let* embedding := encode image in
  let embedding_list := map float embedding in
  ret (jsonify {[ "embedding" := JArr (map JFloat embedding_list);
                  "dimension" := JInt (Z.of_nat (length embedding_list)) ]}
               200).

Definition error_reply (msg : string) (code : Z) : response :=
  jsonify {[ "error" := JStr msg ]} code.

(** Lines 38-58, the body of the [try]. *)
Definition embed_body (req : request) : M response :=
  let* data := lift (request_json req) in
  let* has_image := lift (contains "image" data) in
  if has_image : bool then
    let* v := lift (getitem data "image") in
    let* image := get_image_from_base64 v in
    embed_reply image
  else
    let* has_url := lift (contains "imageUrl" data) in
    if has_url : bool then
      let* v := lift (getitem data "imageUrl") in
      let* image := get_image_from_url v in
      embed_reply image
    else
      ret (error_reply "No image provided" 400).

Definition embed_image (req : request) : M response :=
  try_except (embed_body req) (fun e => error_reply (str e) 500).

(** *** [compare_images] *)

(** Lines 72-75 and 77-80: one image reference, inline or remote. *)
Definition image_of_ref (ref : json) : M Image :=
  let* has_base64 := lift (contains "base64" ref) in
  if has_base64 : bool then
    let* v := lift (getitem ref "base64") in
    get_image_from_base64 v
  else
    let* v := lift (getitem ref "url") in
    get_image_from_url v.

(** Lines 71-84: both images, then both embeddings.  The source
    evaluates [data['image1']] once for the membership test and once
    for the lookup; the value is the same, so it is read once here. *)
Definition load_embeddings (data : json)
  : M (list spec_float * list spec_float) :=
  let* ref1 := lift (getitem data "image1") in
  let* img1 := image_of_ref ref1 in
  let* ref2 := lift (getitem data "image2") in
  let* img2 := image_of_ref ref2 in
  let* emb1 := encode img1 in
  let* emb2 := encode img2 in
  ret (emb1, emb2).

(** Lines 89-92. *)
Definition similarity_reply (similarity : spec_float) : response :=
  jsonify {[ "similarity" := JFloat similarity;
             "percentage" := JFloat (percentage similarity) ]} 200.

(** Lines 86-92. *)
Definition compare_reply (emb1 emb2 : list spec_float) : M response :=
  let* d := lift (np_dot emb1 emb2) in
  let similarity :=
    float (cosine_quotient d (np_linalg_norm emb1) (np_linalg_norm emb2)) in
  ret (similarity_reply similarity).

(** Lines 66-92, the body of the [try]. *)
Definition compare_body (req : request) : M response :=
  let* data := lift (request_json req) in
  let* has1 := lift (contains "image1" data) in
  if negb has1 then ret (error_reply "Both images required" 400) else
  let* has2 := lift (contains "image2" data) in
  if negb has2 then ret (error_reply "Both images required" 400) else
  let* embs := load_embeddings data in
  compare_reply (fst embs) (snd embs).

Definition compare_images (req : request) : M response :=
  try_except (compare_body req) (fun e => error_reply (str e) 500).

Definition health : response :=
  jsonify {[ "status" := JStr "healthy"; "model" := JStr "clip-ViT-B-32" ]} 200.

End Service.

Arguments world Image : clear implicits.
Arguments event Image : clear implicits.

Notation "'let*' x ':=' c 'in' k" := (bind c (fun x => k))
  (at level 10, x name, c at level 100, k at level 200, only parsing).

(** ** Observations on a log of library calls *)

Section Calls.
Context {Image : Type}.

Definition is_decode (ev : event Image) : bool :=
  match ev with Call_b64decode _ => true | _ => false end.

Definition is_fetch (ev : event Image) : bool :=
  match ev with Call_requests_get _ _ => true | _ => false end.

Definition is_open (ev : event Image) : bool :=
  match ev with Call_Image_open _ => true | _ => false end.

Definition is_inference (ev : event Image) : bool :=
  match ev with Call_model_encode _ => true | _ => false end.

(** The first call of a resolver: a decode, or a fetch with
    [timeout=10]. *)
Definition is_resolver_call (ev : event Image) : bool :=
  match ev with
  | Call_b64decode _ => true
  | Call_requests_get _ timeout => Z.eqb timeout 10
  | _ => false
  end.

(** How many calls of a kind a log holds. *)
Fixpoint count_calls (kind : event Image -> bool) (log : list (event Image)) : nat :=
  match log with
  | [] => 0%nat
  | ev :: log' => ((if kind ev then 1 else 0) + count_calls kind log')%nat
  end.

(** Every fetch of the log was made with [timeout=10]. *)
Definition timeouts_are_10 (log : list (event Image)) : bool :=
  forallb (fun ev => match ev with
                     | Call_requests_get _ timeout => Z.eqb timeout 10
                     | _ => true
                     end) log.

(** The log follows a pattern of kinds of calls, in order, up to the
    point where it stops. *)
Fixpoint follows (pattern : list (event Image -> bool)) (log : list (event Image))
  : bool :=
  match log, pattern with
  | [], _ => true
  | ev :: log', kind :: pattern' => kind ev && follows pattern' log'
  | _ :: _, [] => false
  end.

(** A computation that only extends the log it is given, and whose
    outcome does not depend on that log. *)
Definition appends {A} (c : @M Image A) : Prop :=
  forall t, c t = (fst (c []), t ++ snd (c [])).
End Calls.

(** ** Shapes of decoded bodies *)

(** [None], [bool], [int] and [float]: no [in] operator. *)
Definition is_scalar (data : json) : bool :=
  match data with
  | JNull | JBool _ | JInt _ | JFloat _ => true
  | _ => false
  end.

(** [list] and [str]: they have [in], and no subscript by a [str]. *)
Definition is_sequence (data : json) : bool :=
  match data with
  | JArr _ | JStr _ => true
  | _ => false
  end.

(** ** The specification's words *)

(** Definitions written from the specification (sections 4 and 7), not
    from the handlers: what an image reference is and what resolving it
    gives, which step of a request faults, what "cosine similarity" and
    "rounded to 2 decimal places" denote.  The properties below compare
    the handlers with them. *)
Module Spec.

(** An error (an instance of [Exception]) or a signal outside
    [Exception]. *)
Inductive fault : Type :=
| Error (e : exn)
| Signal (cls msg : string).

(** The step that ended as [o] faulted with [f]. *)
Definition faults {A} (o : outcome A) (f : fault) : Prop :=
  match o, f with
  | Raise e, Error e' => e = e'
  | RaiseBase cls msg, Signal cls' msg' => cls = cls' /\ msg = msg'
  | _, _ => False
  end.

(** Section 3: an image reference is inline encoded text or a remote
    address. *)
Inductive source : Type :=
| Inline (text : json)
| Remote (url : json).

Section Resolution.
Context {Image : Type} (W : world Image).

(** Section 4.1: an inline reference is decoded and the bytes are
    opened as an image; a remote one is fetched with a 10-second timeout
    and the body of the answer is opened as an image. *)
Inductive opens : source -> Image -> Prop :=
| opens_inline text bytes image :
    b64decode W text = Return bytes ->
    Image_open W bytes = Return image ->
    opens (Inline text) image
| opens_remote url r image :
    requests_get W url 10 = Return r ->
    Image_open W (content r) = Return image ->
    opens (Remote url) image.

(** Section 4.1, failure modes: the decoding, the fetch, or the opening
    of the bytes. *)
Inductive open_faults : source -> fault -> Prop :=
| decode_faults text f :
    faults (b64decode W text) f ->
    open_faults (Inline text) f
| inline_image_faults text bytes f :
    b64decode W text = Return bytes ->
    faults (Image_open W bytes) f ->
    open_faults (Inline text) f
| fetch_faults url f :
    faults (requests_get W url 10) f ->
    open_faults (Remote url) f
| remote_image_faults url r f :
    requests_get W url 10 = Return r ->
    faults (Image_open W (content r)) f ->
    open_faults (Remote url) f.

(** Section 6, [/embed]: the body names its image by ["image"]
    (inline) or, without it, by ["imageUrl"] (remote). *)
Inductive embed_source (data : json) : source -> Prop :=
| embed_inline text :
    contains "image" data = Return true ->
    getitem data "image" = Return text ->
    embed_source data (Inline text)
| embed_remote url :
    contains "image" data = Return false ->
    contains "imageUrl" data = Return true ->
    getitem data "imageUrl" = Return url ->
    embed_source data (Remote url).

(** Reading the fields of an [/embed] body faults. *)
Inductive embed_fields_fault (data : json) : fault -> Prop :=
| embed_image_test_faults f :
    faults (contains "image" data) f ->
    embed_fields_fault data f
| embed_image_read_faults f :
    contains "image" data = Return true ->
    faults (getitem data "image") f ->
    embed_fields_fault data f
| embed_url_test_faults f :
    contains "image" data = Return false ->
    faults (contains "imageUrl" data) f ->
    embed_fields_fault data f
| embed_url_read_faults f :
    contains "image" data = Return false ->
    contains "imageUrl" data = Return true ->
    faults (getitem data "imageUrl") f ->
    embed_fields_fault data f.

(** Section 7: the steps of an embed request that can fault: reading
    the JSON body, reading its fields, resolving the image, inference. *)
Inductive embed_faults (req : request) : fault -> Prop :=
| embed_json_faults f :
    faults (request_json req) f ->
    embed_faults req f
| embed_fields_faults data f :
    request_json req = Return data ->
    embed_fields_fault data f ->
    embed_faults req f
| embed_resolution_faults data src f :
    request_json req = Return data ->
    embed_source data src ->
    open_faults src f ->
    embed_faults req f
| embed_inference_faults data src image f :
    request_json req = Return data ->
    embed_source data src ->
    opens src image ->
    faults (model_encode W image) f ->
    embed_faults req f.

(** Section 4.4, [embed]: the request resolves to [image] and the model
    gives [emb] for it. *)
Inductive embedded (req : request) (image : Image) (emb : list spec_float) : Prop :=
| embedded_intro data src :
    request_json req = Return data ->
    embed_source data src ->
    opens src image ->
    model_encode W image = Return emb ->
    embedded req image emb.

(** Section 6, [/compare]: a reference names its image by ["base64"]
    (inline) or, without it, by ["url"] (remote). *)
Inductive ref_source (ref : json) : source -> Prop :=
| ref_inline text :
    contains "base64" ref = Return true ->
    getitem ref "base64" = Return text ->
    ref_source ref (Inline text)
| ref_remote url :
    contains "base64" ref = Return false ->
    getitem ref "url" = Return url ->
    ref_source ref (Remote url).

(** The reference resolves to [image]. *)
Inductive resolves (ref : json) (image : Image) : Prop :=
| resolves_intro src :
    ref_source ref src -> opens src image -> resolves ref image.

(** Resolving the reference faults: reading its keys, or opening its
    source. *)
Inductive resolve_faults (ref : json) : fault -> Prop :=
| ref_test_faults f :
    faults (contains "base64" ref) f ->
    resolve_faults ref f
| ref_inline_read_faults f :
    contains "base64" ref = Return true ->
    faults (getitem ref "base64") f ->
    resolve_faults ref f
| ref_remote_read_faults f :
    contains "base64" ref = Return false ->
    faults (getitem ref "url") f ->
    resolve_faults ref f
| ref_open_faults src f :
    ref_source ref src ->
    open_faults src f ->
    resolve_faults ref f.

(** Both fields of a [/compare] body are present. *)
Definition both_present (data : json) : Prop :=
  contains "image1" data = Return true /\ contains "image2" data = Return true.

(** Section 4.4, [compare]: both references resolve and the model gives
    [emb1] and [emb2] for the two images. *)
Inductive compared (req : request) (emb1 emb2 : list spec_float) : Prop :=
| compared_intro data ref1 ref2 img1 img2 :
    request_json req = Return data ->
    both_present data ->
    getitem data "image1" = Return ref1 ->
    resolves ref1 img1 ->
    getitem data "image2" = Return ref2 ->
    resolves ref2 img2 ->
    model_encode W img1 = Return emb1 ->
    model_encode W img2 = Return emb2 ->
    compared req emb1 emb2.

(** Section 7: the steps of a compare request that can fault, in the
    order in which they are taken. *)
Inductive compare_faults (req : request) : fault -> Prop :=
| compare_json_faults f :
    faults (request_json req) f ->
    compare_faults req f
| compare_first_test_faults data f :
    request_json req = Return data ->
    faults (contains "image1" data) f ->
    compare_faults req f
| compare_second_test_faults data f :
    request_json req = Return data ->
    contains "image1" data = Return true ->
    faults (contains "image2" data) f ->
    compare_faults req f
| compare_first_read_faults data f :
    request_json req = Return data ->
    both_present data ->
    faults (getitem data "image1") f ->
    compare_faults req f
| compare_first_resolution_faults data ref1 f :
    request_json req = Return data ->
    both_present data ->
    getitem data "image1" = Return ref1 ->
    resolve_faults ref1 f ->
    compare_faults req f
| compare_second_read_faults data ref1 img1 f :
    request_json req = Return data ->
    both_present data ->
    getitem data "image1" = Return ref1 ->
    resolves ref1 img1 ->
    faults (getitem data "image2") f ->
    compare_faults req f
| compare_second_resolution_faults data ref1 img1 ref2 f :
    request_json req = Return data ->
    both_present data ->
    getitem data "image1" = Return ref1 ->
    resolves ref1 img1 ->
    getitem data "image2" = Return ref2 ->
    resolve_faults ref2 f ->
    compare_faults req f
| compare_first_inference_faults data ref1 img1 ref2 img2 f :
    request_json req = Return data ->
    both_present data ->
    getitem data "image1" = Return ref1 ->
    resolves ref1 img1 ->
    getitem data "image2" = Return ref2 ->
    resolves ref2 img2 ->
    faults (model_encode W img1) f ->
    compare_faults req f
| compare_second_inference_faults data ref1 img1 ref2 img2 emb1 f :
    request_json req = Return data ->
    both_present data ->
    getitem data "image1" = Return ref1 ->
    resolves ref1 img1 ->
    getitem data "image2" = Return ref2 ->
    resolves ref2 img2 ->
    model_encode W img1 = Return emb1 ->
    faults (model_encode W img2) f ->
    compare_faults req f
| compare_shape_faults emb1 emb2 :
    compared req emb1 emb2 ->
    length emb1 <> length emb2 ->
    compare_faults req (Error (shape_error (length emb1) (length emb2))).

(** Section 4.3: cosine similarity = dot(a,b) / (|a| * |b|), the norm
    being the square root of the dot product of a vector with itself,
    every operation in float32 and the dot products as the library
    computes them. *)
Definition dot (a b : list spec_float) : spec_float :=
  blas_sum W (map (fun xy => exact_mul (fst xy) (snd xy)) (combine a b)).

Definition norm (a : list spec_float) : spec_float :=
  SFsqrt 24 128 (dot a a).

Definition cosine (a b : list spec_float) : spec_float :=
  SFdiv 24 128 (dot a b) (SFmul 24 128 (norm a) (norm b)).
End Resolution.



(** The [float] written [k / 10^ndigits] in decimal, with the sign
    [s]. *)
Definition decimal (s : bool) (k : Z) (ndigits : nat) : spec_float :=
  match k with
  | Zpos p =>
      SFdiv 53 1024 (S754_finite s p 0)
            (S754_finite false (Z.to_pos (10 ^ Z.of_nat ndigits)) 0)
  | _ => S754_zero s
  end.

End Spec.

(** The resolver the handlers run for a source. *)
Definition resolver {Image : Type} (W : world Image) (src : Spec.source) : M Image :=
  match src with
  | Spec.Inline text => get_image_from_base64 W text
  | Spec.Remote url => get_image_from_url W url
  end.

(** ** Sample runs *)

Module Sample.
Import Byte.

(** A BLAS build that rounds every product to float32, adds the
    products in double precision from left to right and rounds the sum
    to float32. *)
Definition float32_of_product (p : spec_float) : spec_float :=
  match p with
  | S754_finite s m e =>
      binary_round_aux Binary32.prec Binary32.emax s (Zpos m) e loc_Exact
  | _ => p
  end.

Definition float32_of_double (x : spec_float) : spec_float :=
  match x with
  | S754_finite s m e => binary_round Binary32.prec Binary32.emax s m e
  | _ => x
  end.

Definition double_sum (terms : list spec_float) : spec_float :=
  float32_of_double
    (fold_left (fun acc p => Binary64.add acc (float (float32_of_product p)))
               terms (S754_zero false)).

(** The first bytes of a PNG file and their base64 text. *)
Definition png : list byte := [x89; x50; x4e; x47].
Definition png_base64 : string := "iVBORw==".

Definition missing_url : string := "http://img.test/missing.png".

(** A world in which [png_base64] decodes to [png], [png] opens as an
    image, the server answers [missing_url] with status 404 and the
    bytes [png], every other fetch fails, and the model maps every
    image to [emb]. *)
Definition sample_world (emb : list spec_float) : world (list byte) :=
  {| b64decode := fun s =>
       match s with
       | JStr t =>
           if String.eqb t png_base64 then Return png
           else Raise (LibraryError "binascii.Error" "Incorrect padding")
       | _ => Raise (TypeError
                "argument should be a bytes-like object or ASCII string")
       end;
     Image_open := fun data =>
       if bool_decide (map to_N data = map to_N png) then Return data
       else Raise (LibraryError "PIL.UnidentifiedImageError"
                     "cannot identify image file");
     requests_get := fun url _ =>
       match url with
       | JStr u =>
           if String.eqb u missing_url
           then Return {| status_code := 404; content := png |}
           else Raise (LibraryError "requests.exceptions.ConnectionError"
                         "Failed to establish a new connection")
       | _ => Raise (LibraryError "requests.exceptions.MissingSchema"
                       "Invalid URL")
       end;
     model_encode := fun _ => Return emb;
     blas_sum := double_sum |}.

Definition post (data : gmap string json) : request :=
  {| request_json := Return (JObj data) |}.

Definition inline_ref : json := JObj {[ "base64" := JStr png_base64 ]}.

Definition both_inline : gmap string json :=
  {[ "image1" := inline_ref; "image2" := inline_ref ]}.

Definition ones : list spec_float := [Binary32.one; Binary32.one].
Definition zeros : list spec_float :=
  [Binary32.zero; Binary32.zero; Binary32.zero].
Definition three_four : list spec_float :=
  [Binary32.of_Z2 3 0; Binary32.of_Z2 4 0].

(** The library calls of a compare request with two inline images. *)
Definition both_inline_calls : list (event (list byte)) :=
  [Call_b64decode (JStr png_base64); Call_Image_open png;
   Call_b64decode (JStr png_base64); Call_Image_open png;
   Call_model_encode png; Call_model_encode png].

(** Python floats written as quotients of integers. *)
Definition decimal (n d : Z) : spec_float :=
  Binary64.div (Binary64.of_Z2 n 0) (Binary64.of_Z2 d 0).

(** The first bytes of a JPEG file and their base64 text. *)
Definition jpeg : list byte := [xff; xd8; xff].
Definition jpeg_base64 : string := "/9j/".

(** A world with two images: [png_base64] and [jpeg_base64] decode to
    [png] and [jpeg], both open, no address can be fetched, and the
    model gives [ones] for [png] and [zeros] for anything else. *)
Definition two_image_world : world (list byte) :=
  {| b64decode := fun s =>
       match s with
       | JStr t =>
           if String.eqb t png_base64 then Return png
           else if String.eqb t jpeg_base64 then Return jpeg
           else Raise (LibraryError "binascii.Error" "Incorrect padding")
       | _ => Raise (TypeError
                "argument should be a bytes-like object or ASCII string")
       end;
     Image_open := fun data =>
       if bool_decide (map to_N data = map to_N png) then Return data
       else if bool_decide (map to_N data = map to_N jpeg) then Return data
       else Raise (LibraryError "PIL.UnidentifiedImageError"
                     "cannot identify image file");
     requests_get := fun _ _ =>
       Raise (LibraryError "requests.exceptions.ConnectionError"
                "Failed to establish a new connection");
     model_encode := fun image =>
       if bool_decide (map to_N image = map to_N png) then Return ones
       else Return zeros;
     blas_sum := double_sum |}.

(** The sample world with a model that leaves by [sys.exit(1)]: a raise
    of [SystemExit], which is not an [Exception]. *)
Definition exiting_world : world (list byte) :=
  {| b64decode := b64decode (sample_world ones);
     Image_open := Image_open (sample_world ones);
     requests_get := requests_get (sample_world ones);
     model_encode := fun _ => RaiseBase "SystemExit" "1";
     blas_sum := double_sum |}.

Definition jpeg_ref : json := JObj {[ "base64" := JStr jpeg_base64 ]}.
Definition remote_ref : json := JObj {[ "url" := JStr missing_url ]}.
Definition broken_ref : json := JObj {[ "base64" := JStr "ab" ]}.

(** Three vectors on which the order and the precision of the sum
    show. *)
Definition big_and_ones : list spec_float :=
  [Binary32.of_Z2 1 24; Binary32.one; Binary32.one].
Definition three_ones : list spec_float :=
  [Binary32.one; Binary32.one; Binary32.one].
Definition big_and_four_ones : list spec_float :=
  [Binary32.of_Z2 1 12; Binary32.one; Binary32.one; Binary32.one; Binary32.one].
End Sample.

(** * Properties *)

(** ** The operators on sample values *)

Example round_2_675 : py_round (Sample.decimal 2675 1000) 2 = Sample.decimal 267 100.
Proof. vm_compute. reflexivity. Qed.

Example round_tie_to_even :
  py_round (Sample.decimal 125 1000) 2 = Sample.decimal 12 100 /\
  py_round (Sample.decimal 375 1000) 2 = Sample.decimal 38 100.
Proof. vm_compute. split; reflexivity. Qed.

Example round_keeps_sign_of_zero :
  py_round (Sample.decimal (-1) 1000) 2 = S754_zero true.
Proof. vm_compute. reflexivity. Qed.

Example float_of_float32_one : float Binary32.one = Sample.decimal 1 1.
Proof. vm_compute. reflexivity. Qed.

Example contains_on_str_and_list :
  contains "image" (JStr "an image") = Return true /\
  contains "image" (JArr [JInt 1; JStr "image"]) = Return true /\
  contains "image" (JArr [JStr "images"]) = Return false /\
  contains "image" JNull =
    Raise (TypeError "argument of type 'NoneType' is not iterable").
Proof. repeat split. Qed.

Example np_dot_shape_mismatch :
  np_dot (Sample.sample_world Sample.ones) Sample.ones Sample.zeros =
    Raise (ValueError "shapes (2,) and (3,) not aligned: 2 (dim 0) != 3 (dim 0)").
Proof. vm_compute. reflexivity. Qed.

(** With the sample BLAS build, which adds in double precision:
    (2^24, 1, 1) . (1, 1, 1) is 16777218, not the 16777216 of a
    float32 accumulator, and the score is 9686332 * 2^-24; the norm of
    (4096, 1, 1, 1, 1) is 4096.00048828125; and the dot product of
    (2^127, 2^127, -2^127) with (1, 1, 1) stays finite while the norm
    overflows, so that the score is 0. *)
Example double_sum_values :
  let W := Sample.sample_world Sample.ones in
  let huge := [Binary32.of_Z2 1 127; Binary32.of_Z2 1 127; Binary32.of_Z2 (-1) 127] in
  np_dot W Sample.big_and_ones Sample.three_ones =
    Return (Binary32.of_Z2 16777218 0) /\
  cosine_similarity W Sample.big_and_ones Sample.three_ones =
    S754_finite false 9686332 (-24) /\
  np_linalg_norm W Sample.big_and_four_ones = S754_finite false 8388609 (-11) /\
  np_dot W huge Sample.three_ones = Return (Binary32.of_Z2 1 127) /\
  cosine_similarity W huge Sample.three_ones = S754_zero false.
Proof. vm_compute. repeat split. Qed.

(** ** Dictionaries *)

Lemma contains_dict_present (key : string) (d : gmap string json) (v : json) :
  d !! key = Some v -> contains key (JObj d) = Return true.
Proof.
  intros H. unfold contains. f_equal. apply bool_decide_eq_true_2. eauto.
Qed.

Lemma contains_dict_absent (key : string) (d : gmap string json) :
  d !! key = None -> contains key (JObj d) = Return false.
Proof.
  intros H. unfold contains. f_equal. apply bool_decide_eq_false_2.
  rewrite H. intros [v Hv]. discriminate.
Qed.

Lemma getitem_dict_present (key : string) (d : gmap string json) (v : json) :
  d !! key = Some v -> getitem (JObj d) key = Return v.
Proof. intros H. unfold getitem. now rewrite H. Qed.

Lemma getitem_dict_absent (key : string) (d : gmap string json) :
  d !! key = None -> getitem (JObj d) key = Raise (KeyError key).
Proof. intros H. unfold getitem. now rewrite H. Qed.

(** ** Running the monad *)

Section Run.
Context {Image : Type}.
Implicit Types t : list (event Image).

Lemma bind_lift_return {A B} (a : A) (k : A -> M B) t :
  bind (@lift Image A (Return a)) k t = k a t.
Proof. reflexivity. Qed.

Lemma bind_lift_raise {A B} (e : exn) (k : A -> M B) t :
  bind (@lift Image A (Raise e)) k t = (Raise e, t).
Proof. reflexivity. Qed.

Lemma bind_lift_raisebase {A B} (cls msg : string) (k : A -> M B) t :
  bind (@lift Image A (RaiseBase cls msg)) k t = (RaiseBase cls msg, t).
Proof. reflexivity. Qed.

Lemma bind_return {A B} (c : @M Image A) (k : A -> M B) t a t' :
  c t = (Return a, t') -> bind c k t = k a t'.
Proof. intros H. unfold bind. now rewrite H. Qed.

Lemma bind_raise {A B} (c : @M Image A) (k : A -> M B) t e t' :
  c t = (Raise e, t') -> bind c k t = (Raise e, t').
Proof. intros H. unfold bind. now rewrite H. Qed.

Lemma bind_raisebase {A B} (c : @M Image A) (k : A -> M B) t cls msg t' :
  c t = (RaiseBase cls msg, t') -> bind c k t = (RaiseBase cls msg, t').
Proof. intros H. unfold bind. now rewrite H. Qed.

Lemma try_except_return {A} (body : @M Image A) handler t a t' :
  body t = (Return a, t') -> try_except body handler t = (Return a, t').
Proof. intros H. unfold try_except. now rewrite H. Qed.

Lemma try_except_raise {A} (body : @M Image A) handler t e t' :
  body t = (Raise e, t') -> try_except body handler t = (Return (handler e), t').
Proof. intros H. unfold try_except. now rewrite H. Qed.

Lemma try_except_raisebase {A} (body : @M Image A) handler t cls msg t' :
  body t = (RaiseBase cls msg, t') ->
  try_except body handler t = (RaiseBase cls msg, t').
Proof. intros H. unfold try_except. now rewrite H. Qed.
End Run.

Ltac run_step :=
  first [ rewrite bind_lift_return | rewrite bind_lift_raise
        | rewrite bind_lift_raisebase ].

(** ** Validation of the request body *)

Section Validation.
Context {Image : Type} (W : world Image).
Implicit Types t : list (event Image).

(** C5.  An embed request whose JSON object has neither an ["image"]
    nor an ["imageUrl"] field is answered with status 400 and the
    error message ["No image provided"]; no library call is made. *)
Theorem embed_image_no_image (req : request) (d : gmap string json) t :
  request_json req = Return (JObj d) ->
  d !! "image" = None ->
  d !! "imageUrl" = None ->
  embed_image W req t =
    (Return (jsonify {[ "error" := JStr "No image provided" ]} 400), t).
Proof.
  intros Hreq Hi Hu.
  apply try_except_return. unfold embed_body.
  rewrite Hreq, bind_lift_return.
  rewrite (contains_dict_absent _ _ Hi), bind_lift_return. cbn iota.
  rewrite (contains_dict_absent _ _ Hu), bind_lift_return. reflexivity.
Qed.

(** C6.  A compare request whose JSON object lacks ["image1"] or lacks
    ["image2"] is answered with status 400 and the error message
    ["Both images required"], and the list of library calls is left as
    it was: nothing has been decoded, fetched or embedded. *)
Theorem compare_images_missing (req : request) (d : gmap string json) t :
  request_json req = Return (JObj d) ->
  d !! "image1" = None \/ d !! "image2" = None ->
  compare_images W req t =
    (Return (jsonify {[ "error" := JStr "Both images required" ]} 400), t).
Proof.
  intros Hreq Hmiss.
  apply try_except_return. unfold compare_body.
  rewrite Hreq, bind_lift_return.
  destruct (d !! "image1") as [v1|] eqn:H1.
  - destruct Hmiss as [Hmiss|Hmiss]; [discriminate|].
    rewrite (contains_dict_present _ _ _ H1), bind_lift_return. cbn [negb].
    rewrite (contains_dict_absent _ _ Hmiss), bind_lift_return. reflexivity.
  - rewrite (contains_dict_absent _ _ H1), bind_lift_return. reflexivity.
Qed.
End Validation.

(** C5, at a request with an empty object. *)
Lemma embed_image_no_image_witness :
  embed_image (Sample.sample_world Sample.ones) (Sample.post ∅) [] =
    (Return (jsonify {[ "error" := JStr "No image provided" ]} 400), []).
Proof.
  apply (embed_image_no_image (Sample.sample_world Sample.ones)
           (Sample.post ∅) ∅ []); reflexivity.
Defined.

(** C6, at a request that names only ["image1"]. *)
Lemma compare_images_missing_witness :
  compare_images (Sample.sample_world Sample.ones)
    (Sample.post {[ "image1" := Sample.inline_ref ]}) [] =
    (Return (jsonify {[ "error" := JStr "Both images required" ]} 400), []).
Proof.
  apply (compare_images_missing (Sample.sample_world Sample.ones)
           (Sample.post {[ "image1" := Sample.inline_ref ]})
           {[ "image1" := Sample.inline_ref ]} []);
    [reflexivity | right; reflexivity].
Defined.

(** ** The log is only extended *)

Section Appends.
Context {Image : Type}.
Implicit Types t : list (event Image).

Lemma appends_ret {A} (a : A) : appends (@ret Image A a).
Proof. intros t. unfold ret. cbn. now rewrite app_nil_r. Qed.

Lemma appends_lift {A} (o : outcome A) : appends (@lift Image A o).
Proof. intros t. unfold lift. cbn. now rewrite app_nil_r. Qed.

Lemma appends_call {A} (ev : event Image) (o : outcome A) : appends (call ev o).
Proof. intros t. reflexivity. Qed.

Lemma appends_bind {A B} (c : @M Image A) (k : A -> M B) :
  appends c -> (forall a, appends (k a)) -> appends (bind c k).
Proof.
  intros Hc Hk t. unfold bind. rewrite (Hc t).
  destruct (c []) as [[a|e|cls msg] new]; cbn [fst snd]; try reflexivity.
  rewrite (Hk a (t ++ new)), (Hk a new). cbn [fst snd].
  now rewrite app_assoc.
Qed.

Lemma appends_try_except {A} (body : @M Image A) (handler : exn -> A) :
  appends body -> appends (try_except body handler).
Proof.
  intros Hb t. unfold try_except. rewrite (Hb t).
  destruct (body []) as [[a|e|cls msg] new]; reflexivity.
Qed.

Lemma appends_outcome {A} (c : @M Image A) t o t' :
  appends c -> c t = (o, t') -> fst (c []) = o /\ t' = t ++ snd (c []).
Proof. intros Hc Hrun. rewrite (Hc t) in Hrun. now injection Hrun as <- <-. Qed.

Lemma appends_fst {A} (c : @M Image A) t :
  appends c -> fst (c t) = fst (c []).
Proof. intros Hc. now rewrite (Hc t). Qed.

Lemma appends_snd {A} (c : @M Image A) t :
  appends c -> snd (c t) = t ++ snd (c []).
Proof. intros Hc. now rewrite (Hc t). Qed.

(** The outcome of a sequence, with the log left out. *)
Lemma fst_bind {A B} (c : @M Image A) (k : A -> M B) :
  (forall a, appends (k a)) ->
  fst (bind c k []) =
    match fst (c []) with
    | Return a => fst (k a [])
    | Raise e => Raise e
    | RaiseBase cls msg => RaiseBase cls msg
    end.
Proof.
  intros Hk. unfold bind.
  destruct (c []) as [[a|e|cls msg] new]; cbn [fst]; try reflexivity.
  now rewrite (Hk a new).
Qed.

Lemma fst_try_except {A} (body : @M Image A) (handler : exn -> A) t :
  fst (try_except body handler t) =
    match fst (body t) with
    | Return a => Return a
    | Raise e => Return (handler e)
    | RaiseBase cls msg => RaiseBase cls msg
    end.
Proof.
  unfold try_except. destruct (body t) as [[a|e|cls msg] new]; reflexivity.
Qed.

Lemma snd_try_except {A} (body : @M Image A) (handler : exn -> A) t :
  snd (try_except body handler t) = snd (body t).
Proof.
  unfold try_except. destruct (body t) as [[a|e|cls msg] new]; reflexivity.
Qed.

Lemma count_calls_app (kind : event Image -> bool) (l1 l2 : list (event Image)) :
  count_calls kind (l1 ++ l2) = (count_calls kind l1 + count_calls kind l2)%nat.
Proof. induction l1 as [|ev l1 IH]; cbn; [reflexivity|]. rewrite IH. lia. Qed.

Variable W : world Image.

Lemma appends_get_image_from_url (url : json) : appends (get_image_from_url W url).
Proof.
  unfold get_image_from_url.
  apply appends_bind; intros; apply appends_call.
Qed.

Lemma appends_get_image_from_base64 (s : json) : appends (get_image_from_base64 W s).
Proof.
  unfold get_image_from_base64.
  apply appends_bind; intros; apply appends_call.
Qed.

Lemma appends_resolver (src : Spec.source) : appends (resolver W src).
Proof.
  destruct src; [apply appends_get_image_from_base64 | apply appends_get_image_from_url].
Qed.

Lemma appends_image_of_ref (ref : json) : appends (image_of_ref W ref).
Proof.
  unfold image_of_ref.
  apply appends_bind; [apply appends_lift|]. intros [|].
  - apply appends_bind; [apply appends_lift|]. intros v.
    apply appends_get_image_from_base64.
  - apply appends_bind; [apply appends_lift|]. intros v.
    apply appends_get_image_from_url.
Qed.

Lemma appends_encode (image : Image) : appends (encode W image).
Proof. apply appends_call. Qed.

Lemma appends_load_embeddings (data : json) : appends (load_embeddings W data).
Proof.
  unfold load_embeddings.
  repeat (apply appends_bind;
          [first [apply appends_lift | apply appends_image_of_ref
                 | apply appends_encode] | intros ?]).
  apply appends_ret.
Qed.

Lemma appends_embed_reply (image : Image) : appends (embed_reply W image).
Proof.
  unfold embed_reply. apply appends_bind; [apply appends_encode|].
  intros emb. apply appends_ret.
Qed.

Lemma appends_embed_body (req : request) : appends (embed_body W req).
Proof.
  unfold embed_body.
  apply appends_bind; [apply appends_lift|]. intros data.
  apply appends_bind; [apply appends_lift|]. intros [|].
  - apply appends_bind; [apply appends_lift|]. intros v.
    apply appends_bind; [apply appends_get_image_from_base64|]. intros image.
    apply appends_embed_reply.
  - apply appends_bind; [apply appends_lift|]. intros [|].
    + apply appends_bind; [apply appends_lift|]. intros v.
      apply appends_bind; [apply appends_get_image_from_url|]. intros image.
      apply appends_embed_reply.
    + apply appends_ret.
Qed.

Lemma appends_compare_reply (emb1 emb2 : list spec_float) :
  appends (compare_reply W emb1 emb2).
Proof.
  unfold compare_reply. apply appends_bind; [apply appends_lift|].
  intros d. apply appends_ret.
Qed.

Lemma appends_compare_body (req : request) : appends (compare_body W req).
Proof.
  unfold compare_body.
  apply appends_bind; [apply appends_lift|]. intros data.
  apply appends_bind; [apply appends_lift|]. intros [|]; cbn [negb];
    [|apply appends_ret].
  apply appends_bind; [apply appends_lift|]. intros [|]; cbn [negb];
    [|apply appends_ret].
  apply appends_bind; [apply appends_load_embeddings|]. intros embs.
  apply appends_compare_reply.
Qed.

Lemma appends_embed_image (req : request) : appends (embed_image W req).
Proof. apply appends_try_except, appends_embed_body. Qed.

Lemma appends_compare_images (req : request) : appends (compare_images W req).
Proof. apply appends_try_except, appends_compare_body. Qed.

Lemma embed_image_log (req : request) t :
  snd (embed_image W req t) = t ++ snd (embed_body W req []).
Proof.
  unfold embed_image. now rewrite snd_try_except, (appends_snd _ t (appends_embed_body req)).
Qed.

Lemma compare_images_log (req : request) t :
  snd (compare_images W req t) = t ++ snd (compare_body W req []).
Proof.
  unfold compare_images.
  now rewrite snd_try_except, (appends_snd _ t (appends_compare_body req)).
Qed.
End Appends.

(** ** Resolving image references *)

Section Resolution.
Context {Image : Type} (W : world Image).
Implicit Types t : list (event Image).

(** The resolver hands the body of whatever response came back to the
    decoder; [status_code] is not read. *)
Lemma get_image_from_url_response (url : json) (r : http_response) t :
  requests_get W url 10 = Return r ->
  get_image_from_url W url t =
    (Image_open W (content r),
     t ++ [Call_requests_get url 10; Call_Image_open (content r)]).
Proof.
  intros Hr. unfold get_image_from_url, bind, call. rewrite Hr.
  rewrite <- app_assoc. now destruct (Image_open W (content r)).
Qed.

Lemma get_image_from_url_raises (url : json) (e : exn) t :
  requests_get W url 10 = Raise e ->
  get_image_from_url W url t = (Raise e, t ++ [Call_requests_get url 10]).
Proof.
  intros Hr. unfold get_image_from_url, bind, call. now rewrite Hr.
Qed.

Lemma get_image_from_base64_decoded (s : json) (bytes : list Byte.byte) t :
  b64decode W s = Return bytes ->
  get_image_from_base64 W s t =
    (Image_open W bytes, t ++ [Call_b64decode s; Call_Image_open bytes]).
Proof.
  intros Hd. unfold get_image_from_base64, bind, call. rewrite Hd.
  rewrite <- app_assoc. now destruct (Image_open W bytes).
Qed.

Lemma embed_body_inline (req : request) (d : gmap string json) (v : json) t :
  request_json req = Return (JObj d) ->
  d !! "image" = Some v ->
  embed_body W req t =
    (let* image := get_image_from_base64 W v in embed_reply W image) t.
Proof.
  intros Hreq Hv. unfold embed_body.
  rewrite Hreq, bind_lift_return.
  rewrite (contains_dict_present _ _ _ Hv), bind_lift_return. cbn iota.
  now rewrite (getitem_dict_present _ _ _ Hv), bind_lift_return.
Qed.

Lemma embed_body_remote (req : request) (d : gmap string json) (url : json) t :
  request_json req = Return (JObj d) ->
  d !! "image" = None ->
  d !! "imageUrl" = Some url ->
  embed_body W req t =
    (let* image := get_image_from_url W url in embed_reply W image) t.
Proof.
  intros Hreq Hi Hu. unfold embed_body.
  rewrite Hreq, bind_lift_return.
  rewrite (contains_dict_absent _ _ Hi), bind_lift_return. cbn iota.
  rewrite (contains_dict_present _ _ _ Hu), bind_lift_return. cbn iota.
  now rewrite (getitem_dict_present _ _ _ Hu), bind_lift_return.
Qed.

(** C3, as the code has it.  An embed request whose object has an
    ["image"] field is processed from that field alone: the handler
    decodes it, embeds it and replies, whether or not ["imageUrl"] is
    there as well; the reply and the library calls are those of the
    same request without ["imageUrl"], so no fetch is made for it. *)
Theorem embed_image_inline_wins (req : request) (d : gmap string json)
        (v : json) t :
  request_json req = Return (JObj d) ->
  d !! "image" = Some v ->
  embed_image W req t =
    try_except (let* image := get_image_from_base64 W v in embed_reply W image)
               (fun e => jsonify {[ "error" := JStr (str e) ]} 500) t /\
  embed_image W req t =
    embed_image W {| request_json := Return (JObj (delete "imageUrl" d)) |} t.
Proof.
  intros Hreq Hv.
  assert (Hv' : delete "imageUrl" d !! "image" = Some v)
    by (rewrite lookup_delete_ne; [exact Hv | discriminate]).
  unfold embed_image, try_except.
  rewrite (embed_body_inline req d v t Hreq Hv).
  rewrite (embed_body_inline {| request_json := Return (JObj (delete "imageUrl" d)) |}
             (delete "imageUrl" d) v t eq_refl Hv').
  split; reflexivity.
Qed.

Lemma image_of_ref_inline (r : gmap string json) (b : json) t :
  r !! "base64" = Some b ->
  image_of_ref W (JObj r) t = get_image_from_base64 W b t.
Proof.
  intros Hb. unfold image_of_ref.
  rewrite (contains_dict_present _ _ _ Hb), bind_lift_return. cbn iota.
  now rewrite (getitem_dict_present _ _ _ Hb), bind_lift_return.
Qed.

Lemma image_of_ref_remote (r : gmap string json) (url : json) t :
  r !! "base64" = None ->
  r !! "url" = Some url ->
  image_of_ref W (JObj r) t = get_image_from_url W url t.
Proof.
  intros Hb Hu. unfold image_of_ref.
  rewrite (contains_dict_absent _ _ Hb), bind_lift_return. cbn iota.
  now rewrite (getitem_dict_present _ _ _ Hu), bind_lift_return.
Qed.

Lemma image_of_ref_empty (r : gmap string json) t :
  r !! "base64" = None ->
  r !! "url" = None ->
  image_of_ref W (JObj r) t = (Raise (KeyError "url"), t).
Proof.
  intros Hb Hu. unfold image_of_ref.
  rewrite (contains_dict_absent _ _ Hb), bind_lift_return. cbn iota.
  now rewrite (getitem_dict_absent _ _ Hu), bind_lift_raise.
Qed.

Lemma load_embeddings_present (d : gmap string json) (ref1 ref2 : json) t :
  d !! "image1" = Some ref1 ->
  d !! "image2" = Some ref2 ->
  load_embeddings W (JObj d) t =
    (let* img1 := image_of_ref W ref1 in
     let* img2 := image_of_ref W ref2 in
     let* emb1 := encode W img1 in
     let* emb2 := encode W img2 in
     ret (emb1, emb2)) t.
Proof.
  intros H1 H2. unfold load_embeddings.
  rewrite (getitem_dict_present _ _ _ H1), bind_lift_return.
  destruct (image_of_ref W ref1 t) as [[img1|e|cls msg] t1] eqn:Hrun.
  - rewrite !(bind_return _ _ _ _ _ Hrun).
    now rewrite (getitem_dict_present _ _ _ H2), bind_lift_return.
  - now rewrite !(bind_raise _ _ _ _ _ Hrun).
  - now rewrite !(bind_raisebase _ _ _ _ _ _ Hrun).
Qed.

Lemma compare_body_present (req : request) (d : gmap string json)
      (ref1 ref2 : json) t :
  request_json req = Return (JObj d) ->
  d !! "image1" = Some ref1 ->
  d !! "image2" = Some ref2 ->
  compare_body W req t =
    (let* embs := load_embeddings W (JObj d) in
     compare_reply W (fst embs) (snd embs)) t.
Proof.
  intros Hreq H1 H2. unfold compare_body.
  rewrite Hreq, bind_lift_return.
  rewrite (contains_dict_present _ _ _ H1), bind_lift_return. cbn [negb].
  now rewrite (contains_dict_present _ _ _ H2), bind_lift_return.
Qed.

Lemma compare_images_load_raises (req : request) (d : gmap string json)
      (ref1 ref2 : json) (e : exn) t t' :
  request_json req = Return (JObj d) ->
  d !! "image1" = Some ref1 ->
  d !! "image2" = Some ref2 ->
  load_embeddings W (JObj d) t = (Raise e, t') ->
  compare_images W req t =
    (Return (jsonify {[ "error" := JStr (str e) ]} 500), t').
Proof.
  intros Hreq H1 H2 Hload. unfold compare_images, try_except.
  rewrite (compare_body_present req d ref1 ref2 t Hreq H1 H2).
  now rewrite (bind_raise _ _ _ _ _ Hload).
Qed.

Lemma load_embeddings_first_raises (d : gmap string json) (ref1 ref2 : json)
      (e : exn) t t1 :
  d !! "image1" = Some ref1 ->
  d !! "image2" = Some ref2 ->
  image_of_ref W ref1 t = (Raise e, t1) ->
  load_embeddings W (JObj d) t = (Raise e, t1).
Proof.
  intros H1 H2 Hrun. rewrite (load_embeddings_present d ref1 ref2 t H1 H2).
  now apply bind_raise.
Qed.

Lemma load_embeddings_second_raises (d : gmap string json) (ref1 ref2 : json)
      (img1 : Image) (e : exn) t t1 t2 :
  d !! "image1" = Some ref1 ->
  d !! "image2" = Some ref2 ->
  image_of_ref W ref1 t = (Return img1, t1) ->
  image_of_ref W ref2 t1 = (Raise e, t2) ->
  load_embeddings W (JObj d) t = (Raise e, t2).
Proof.
  intros H1 H2 Hrun1 Hrun2.
  rewrite (load_embeddings_present d ref1 ref2 t H1 H2).
  rewrite (bind_return _ _ _ _ _ Hrun1). now apply bind_raise.
Qed.

(** C2, as the code has it.  A remote reference, in an embed request
    (["imageUrl"]) or in either position of a compare request (["url"]),
    goes through [get_image_from_url]: a fetch that raises fails the
    request with status 500 and the exception's message; a fetch that
    returns a response, of any status code, has its body opened as an
    image, and the request fails with 500 when opening raises and goes
    on with the opened image when it succeeds. *)
Theorem remote_reference_status_unchecked :
  (forall (req : request) (d : gmap string json) (url : json) t,
      request_json req = Return (JObj d) ->
      d !! "image" = None ->
      d !! "imageUrl" = Some url ->
      (forall e, requests_get W url 10 = Raise e ->
         embed_image W req t =
           (Return (jsonify {[ "error" := JStr (str e) ]} 500),
            t ++ [Call_requests_get url 10])) /\
      (forall r e, requests_get W url 10 = Return r ->
         Image_open W (content r) = Raise e ->
         embed_image W req t =
           (Return (jsonify {[ "error" := JStr (str e) ]} 500),
            t ++ [Call_requests_get url 10; Call_Image_open (content r)])) /\
      (forall r image, requests_get W url 10 = Return r ->
         Image_open W (content r) = Return image ->
         embed_image W req t =
           try_except (embed_reply W image)
             (fun e => jsonify {[ "error" := JStr (str e) ]} 500)
             (t ++ [Call_requests_get url 10; Call_Image_open (content r)]))) /\
  (forall (req : request) (d : gmap string json) (ref1 ref2 : json)
          (r1 : gmap string json) (url : json) t,
      request_json req = Return (JObj d) ->
      d !! "image1" = Some ref1 ->
      d !! "image2" = Some ref2 ->
      ref1 = JObj r1 ->
      r1 !! "base64" = None ->
      r1 !! "url" = Some url ->
      (forall e, requests_get W url 10 = Raise e ->
         compare_images W req t =
           (Return (jsonify {[ "error" := JStr (str e) ]} 500),
            t ++ [Call_requests_get url 10])) /\
      (forall r e, requests_get W url 10 = Return r ->
         Image_open W (content r) = Raise e ->
         compare_images W req t =
           (Return (jsonify {[ "error" := JStr (str e) ]} 500),
            t ++ [Call_requests_get url 10; Call_Image_open (content r)])) /\
      (forall r image, requests_get W url 10 = Return r ->
         Image_open W (content r) = Return image ->
         image_of_ref W ref1 t =
           (Return image,
            t ++ [Call_requests_get url 10; Call_Image_open (content r)]))) /\
  (forall (req : request) (d : gmap string json) (ref1 ref2 : json)
          (img1 : Image) (r2 : gmap string json) (url : json) t t1,
      request_json req = Return (JObj d) ->
      d !! "image1" = Some ref1 ->
      d !! "image2" = Some ref2 ->
      image_of_ref W ref1 t = (Return img1, t1) ->
      ref2 = JObj r2 ->
      r2 !! "base64" = None ->
      r2 !! "url" = Some url ->
      (forall e, requests_get W url 10 = Raise e ->
         compare_images W req t =
           (Return (jsonify {[ "error" := JStr (str e) ]} 500),
            t1 ++ [Call_requests_get url 10])) /\
      (forall r e, requests_get W url 10 = Return r ->
         Image_open W (content r) = Raise e ->
         compare_images W req t =
           (Return (jsonify {[ "error" := JStr (str e) ]} 500),
            t1 ++ [Call_requests_get url 10; Call_Image_open (content r)])) /\
      (forall r image, requests_get W url 10 = Return r ->
         Image_open W (content r) = Return image ->
         image_of_ref W ref2 t1 =
           (Return image,
            t1 ++ [Call_requests_get url 10; Call_Image_open (content r)]))).
Proof.
  split; [|split].
  - intros req d url t Hreq Hi Hu. unfold embed_image, try_except.
    rewrite (embed_body_remote req d url t Hreq Hi Hu). unfold bind.
    repeat split.
    + intros e He. now rewrite (get_image_from_url_raises _ _ _ He).
    + intros r e Hr He.
      now rewrite (get_image_from_url_response _ _ _ Hr), He.
    + intros r image Hr Himg.
      now rewrite (get_image_from_url_response _ _ _ Hr), Himg.
  - intros req d ref1 ref2 r1 url t Hreq H1 H2 -> Hb Hu. repeat split.
    + intros e He.
      apply (compare_images_load_raises req d _ ref2 e t _ Hreq H1 H2).
      apply (load_embeddings_first_raises d _ ref2 e t _ H1 H2).
      rewrite (image_of_ref_remote r1 url t Hb Hu).
      now apply get_image_from_url_raises.
    + intros r e Hr He.
      apply (compare_images_load_raises req d _ ref2 e t _ Hreq H1 H2).
      apply (load_embeddings_first_raises d _ ref2 e t _ H1 H2).
      rewrite (image_of_ref_remote r1 url t Hb Hu).
      now rewrite (get_image_from_url_response _ _ _ Hr), He.
    + intros r image Hr Himg.
      rewrite (image_of_ref_remote r1 url t Hb Hu).
      now rewrite (get_image_from_url_response _ _ _ Hr), Himg.
  - intros req d ref1 ref2 img1 r2 url t t1 Hreq H1 H2 Hrun1 -> Hb Hu.
    repeat split.
    + intros e He.
      apply (compare_images_load_raises req d ref1 _ e t _ Hreq H1 H2).
      apply (load_embeddings_second_raises d ref1 _ img1 e t t1 _ H1 H2 Hrun1).
      rewrite (image_of_ref_remote r2 url t1 Hb Hu).
      now apply get_image_from_url_raises.
    + intros r e Hr He.
      apply (compare_images_load_raises req d ref1 _ e t _ Hreq H1 H2).
      apply (load_embeddings_second_raises d ref1 _ img1 e t t1 _ H1 H2 Hrun1).
      rewrite (image_of_ref_remote r2 url t1 Hb Hu).
      now rewrite (get_image_from_url_response _ _ _ Hr), He.
    + intros r image Hr Himg.
      rewrite (image_of_ref_remote r2 url t1 Hb Hu).
      now rewrite (get_image_from_url_response _ _ _ Hr), Himg.
Qed.

(** C10.  In a compare request with both ["image1"] and ["image2"]
    present:
    - if the ["image1"] object has neither ["base64"] nor ["url"], the
      lookup of ["url"] raises [KeyError] and the reply is 500 with
      message ['url'], before any library call;
    - if the ["image2"] object has neither key, the reply is 500 as
      well (never the 400 of validation): with the [KeyError] message
      once the first image has been resolved, with the first image's
      own failure otherwise (a raise outside [Exception] in the first
      image's library calls passes through instead);
    - a reference object with a ["base64"] key is resolved from that
      key by [get_image_from_base64], exactly as the same object
      without its ["url"] key. *)
Theorem compare_images_references (req : request) (d : gmap string json)
        (ref1 ref2 : json) t :
  request_json req = Return (JObj d) ->
  d !! "image1" = Some ref1 ->
  d !! "image2" = Some ref2 ->
  (forall r1, ref1 = JObj r1 ->
     r1 !! "base64" = None -> r1 !! "url" = None ->
     compare_images W req t =
       (Return (jsonify {[ "error" := JStr "'url'" ]} 500), t)) /\
  (forall r2, ref2 = JObj r2 ->
     r2 !! "base64" = None -> r2 !! "url" = None ->
     (status_of (fst (compare_images W req t)) = Some 500 \/
      exists cls msg t1,
        image_of_ref W ref1 t = (RaiseBase cls msg, t1) /\
        compare_images W req t = (RaiseBase cls msg, t1)) /\
     forall img1 t1, image_of_ref W ref1 t = (Return img1, t1) ->
       compare_images W req t =
         (Return (jsonify {[ "error" := JStr "'url'" ]} 500), t1)) /\
  (forall (r : gmap string json) (b : json) t0,
     r !! "base64" = Some b ->
     image_of_ref W (JObj r) t0 = get_image_from_base64 W b t0 /\
     image_of_ref W (JObj r) t0 = image_of_ref W (JObj (delete "url" r)) t0).
Proof.
  intros Hreq H1 H2. split; [|split].
  - intros r1 -> Hb Hu.
    apply (compare_images_load_raises req d (JObj r1) ref2 (KeyError "url") t t
             Hreq H1 H2).
    apply (load_embeddings_first_raises d _ ref2 _ t t H1 H2).
    now apply image_of_ref_empty.
  - intros r2 -> Hb Hu.
    assert (Hsecond : forall img1 t1,
               image_of_ref W ref1 t = (Return img1, t1) ->
               load_embeddings W (JObj d) t = (Raise (KeyError "url"), t1)).
    { intros img1 t1 Himg.
      apply (load_embeddings_second_raises d ref1 _ img1 _ t t1 t1 H1 H2 Himg).
      now apply image_of_ref_empty. }
    split.
    + destruct (image_of_ref W ref1 t) as [[img1|e|cls msg] t1] eqn:Himg.
      * left.
        now rewrite (compare_images_load_raises req d ref1 (JObj r2) _ t t1
                       Hreq H1 H2 (Hsecond img1 t1 eq_refl)).
      * left.
        now rewrite (compare_images_load_raises req d ref1 (JObj r2) _ t t1
                       Hreq H1 H2
                       (load_embeddings_first_raises d ref1 _ e t t1 H1 H2 Himg)).
      * right. exists cls, msg, t1. split; [reflexivity|].
        assert (Hload : load_embeddings W (JObj d) t = (RaiseBase cls msg, t1)).
        { rewrite (load_embeddings_present d ref1 (JObj r2) t H1 H2).
          now apply bind_raisebase. }
        unfold compare_images, try_except.
        rewrite (compare_body_present req d ref1 (JObj r2) t Hreq H1 H2).
        now rewrite (bind_raisebase _ _ _ _ _ _ Hload).
    + intros img1 t1 Himg.
      apply (compare_images_load_raises req d ref1 (JObj r2) (KeyError "url") t t1
               Hreq H1 H2 (Hsecond img1 t1 Himg)).
  - intros r b t0 Hb.
    assert (Hb' : delete "url" r !! "base64" = Some b)
      by (rewrite lookup_delete_ne; [exact Hb | discriminate]).
    rewrite (image_of_ref_inline r b t0 Hb).
    now rewrite (image_of_ref_inline (delete "url" r) b t0 Hb').
Qed.
End Resolution.

(** ** The similarity score *)

Lemma Binary32_mul_comm (x y : spec_float) : Binary32.mul x y = Binary32.mul y x.
Proof.
  unfold Binary32.mul, SFmul.
  destruct x as [sx|sx| |sx mx ex], y as [sy|sy| |sy my ey];
    try reflexivity; try (f_equal; apply xorb_comm).
  now rewrite (xorb_comm sx sy), (Pos.mul_comm mx my), (Z.add_comm ex ey).
Qed.

Lemma exact_mul_comm (x y : spec_float) : exact_mul x y = exact_mul y x.
Proof.
  destruct x as [sx|sx| |sx mx ex], y as [sy|sy| |sy my ey]; cbn [exact_mul];
    try reflexivity; try (f_equal; apply xorb_comm).
  now rewrite (xorb_comm sx sy), (Pos.mul_comm mx my), (Z.add_comm ex ey).
Qed.

(** The terms of the dot product do not depend on which array comes
    first, so nothing that the library computes from them does. *)
Lemma products_comm (a b : list spec_float) : products a b = products b a.
Proof.
  unfold products. revert b.
  induction a as [|x a IH]; intros [|y b]; try reflexivity.
  cbn [combine map fst snd]. now rewrite (exact_mul_comm x y), IH.
Qed.

Lemma cosine_similarity_comm {Image : Type} (W : world Image)
      (a b : list spec_float) :
  cosine_similarity W a b = cosine_similarity W b a.
Proof.
  unfold cosine_similarity, cosine_quotient.
  now rewrite (products_comm a b),
    (Binary32_mul_comm (np_linalg_norm W a) (np_linalg_norm W b)).
Qed.

Lemma np_dot_same_length {Image : Type} (W : world Image) (a b : list spec_float) :
  length a = length b -> np_dot W a b = Return (blas_sum W (products a b)).
Proof.
  intros H. unfold np_dot. now rewrite H, Nat.eqb_refl.
Qed.

Lemma np_dot_returns {Image : Type} (W : world Image) (a b : list spec_float)
      (d : spec_float) :
  np_dot W a b = Return d -> length a = length b /\ d = blas_sum W (products a b).
Proof.
  unfold np_dot. destruct (Nat.eqb_spec (length a) (length b)); [|discriminate].
  intros [= <-]. now split.
Qed.

Lemma np_dot_different_length {Image : Type} (W : world Image)
      (a b : list spec_float) :
  length a <> length b -> np_dot W a b = Raise (shape_error (length a) (length b)).
Proof.
  intros H. unfold np_dot.
  now destruct (Nat.eqb_spec (length a) (length b)).
Qed.

Lemma compare_reply_run {Image : Type} (W : world Image)
      (emb1 emb2 : list spec_float) (t : list (event Image)) :
  compare_reply W emb1 emb2 t =
    match np_dot W emb1 emb2 with
    | Return dt =>
        (Return (similarity_reply
                   (float (cosine_quotient dt (np_linalg_norm W emb1)
                             (np_linalg_norm W emb2)))), t)
    | Raise e => (Raise e, t)
    | RaiseBase cls msg => (RaiseBase cls msg, t)
    end.
Proof.
  unfold compare_reply. destruct (np_dot W emb1 emb2); reflexivity.
Qed.

Lemma compare_reply_same_length {Image : Type} (W : world Image)
      (emb1 emb2 : list spec_float) (t : list (event Image)) :
  length emb1 = length emb2 ->
  compare_reply W emb1 emb2 t =
    (Return (similarity_reply (float (cosine_similarity W emb1 emb2))), t).
Proof.
  intros Hlen. now rewrite compare_reply_run, (np_dot_same_length W _ _ Hlen).
Qed.

(** C7.  The similarity is symmetric in the two embeddings.  The terms
    [x[i] * y[i]] that the BLAS routine sums are the same for (A, B) and
    for (B, A), and so is the float32 product of the two norms; hence
    the quotient of line 87 is the same value, whatever the order and
    the precision in which the library adds, and for two embeddings of
    one length the reply built from it is the same. *)
Theorem similarity_symmetric {Image : Type} (W : world Image)
        (a b : list spec_float) :
  cosine_similarity W a b = cosine_similarity W b a /\
  (length a = length b ->
   forall t : list (event Image), compare_reply W a b t = compare_reply W b a t).
Proof.
  split; [apply cosine_similarity_comm|].
  intros Hlen t.
  rewrite (compare_reply_same_length W a b t Hlen).
  rewrite (compare_reply_same_length W b a t (eq_sym Hlen)).
  now rewrite (cosine_similarity_comm W a b).
Qed.

(** *** Division by a zero norm *)

Lemma cosine_quotient_zero_norm (d n1 n2 : spec_float) :
  is_zero n1 = true \/ is_zero n2 = true ->
  is_finite (cosine_quotient d n1 n2) = false.
Proof.
  unfold cosine_quotient, Binary32.div, Binary32.mul.
  intros [H|H].
  - destruct n1; try discriminate. destruct n2, d; reflexivity.
  - destruct n2; try discriminate. destruct n1, d; reflexivity.
Qed.

Lemma float_not_finite (x : spec_float) :
  is_finite x = false -> float x = x.
Proof. destruct x; try discriminate; reflexivity. Qed.

Lemma percentage_not_finite (x : spec_float) :
  is_finite x = false -> percentage x = x.
Proof.
  destruct x as [s|s| |s m e]; try discriminate; intros _.
  - destruct s; reflexivity.
  - reflexivity.
Qed.

Section Similarity.
Context {Image : Type} (W : world Image).
Implicit Types t : list (event Image).

Lemma compare_images_embedded (req : request) (data : json)
      (emb1 emb2 : list spec_float) t t' :
  request_json req = Return data ->
  contains "image1" data = Return true ->
  contains "image2" data = Return true ->
  load_embeddings W data t = (Return (emb1, emb2), t') ->
  length emb1 = length emb2 ->
  compare_images W req t =
    (Return (similarity_reply (float (cosine_similarity W emb1 emb2))), t').
Proof.
  intros Hreq H1 H2 Hload Hlen.
  apply try_except_return. unfold compare_body.
  rewrite Hreq, bind_lift_return, H1, bind_lift_return. cbn [negb].
  rewrite H2, bind_lift_return. cbn [negb].
  rewrite (bind_return _ _ _ _ _ Hload). cbn [fst snd].
  now apply compare_reply_same_length.
Qed.

(** C1, as the code has it.  When the request reaches line 87 with two
    embeddings of one length and the norm of either is zero, the
    float32 division raises nothing: its value is NaN or an infinity,
    and the handler answers 200 with that value as ["similarity"] and
    as ["percentage"]. *)
Theorem compare_images_zero_norm (req : request) (d : gmap string json)
        (emb1 emb2 : list spec_float) t t' :
  request_json req = Return (JObj d) ->
  is_Some (d !! "image1") ->
  is_Some (d !! "image2") ->
  load_embeddings W (JObj d) t = (Return (emb1, emb2), t') ->
  length emb1 = length emb2 ->
  is_zero (np_linalg_norm W emb1) = true \/ is_zero (np_linalg_norm W emb2) = true ->
  exists s,
    is_finite s = false /\
    s = cosine_similarity W emb1 emb2 /\
    compare_images W req t =
      (Return (jsonify {[ "similarity" := JFloat s; "percentage" := JFloat s ]} 200),
       t').
Proof.
  intros Hreq [v1 H1] [v2 H2] Hload Hlen Hzero.
  exists (cosine_similarity W emb1 emb2).
  assert (Hnf : is_finite (cosine_similarity W emb1 emb2) = false)
    by (apply cosine_quotient_zero_norm; exact Hzero).
  split; [exact Hnf|]. split; [reflexivity|].
  rewrite (compare_images_embedded req (JObj d) emb1 emb2 t t' Hreq
             (contains_dict_present _ _ _ H1) (contains_dict_present _ _ _ H2)
             Hload Hlen).
  unfold similarity_reply.
  now rewrite (float_not_finite _ Hnf), (percentage_not_finite _ Hnf).
Qed.
End Similarity.

(** *** Rounding to a number of decimals *)






(** ** The handlers and the steps of the specification *)

Section Refinement.
Context {Image : Type} (W : world Image).
Implicit Types t : list (event Image).

Lemma fst_bind_run {A B} (c : @M Image A) (k : A -> M B) t :
  fst (bind c k t) =
    match fst (c t) with
    | Return a => fst (k a (snd (c t)))
    | Raise e => Raise e
    | RaiseBase cls msg => RaiseBase cls msg
    end.
Proof. unfold bind. destruct (c t) as [[a|e|cls msg] t']; reflexivity. Qed.

Lemma faults_raise {A} (e : exn) : Spec.faults (@Raise A e) (Spec.Error e).
Proof. reflexivity. Qed.

Lemma faults_raisebase {A} (cls msg : string) :
  Spec.faults (@RaiseBase A cls msg) (Spec.Signal cls msg).
Proof. split; reflexivity. Qed.


(** *** Resolving a source *)

Lemma resolver_cases (src : Spec.source) t :
  match fst (resolver W src t) with
  | Return image => Spec.opens W src image
  | Raise e => Spec.open_faults W src (Spec.Error e)
  | RaiseBase cls msg => Spec.open_faults W src (Spec.Signal cls msg)
  end.
Proof.
  destruct src as [text|url]; cbn [resolver];
    unfold get_image_from_base64, get_image_from_url;
    rewrite fst_bind_run; cbn [call fst snd].
  - destruct (b64decode W text) as [bytes|e|cls msg] eqn:Hd.
    + destruct (Image_open W bytes) as [image|e|cls msg] eqn:Ho.
      * eapply Spec.opens_inline; eassumption.
      * eapply Spec.inline_image_faults; [eassumption|].
        rewrite Ho. apply faults_raise.
      * eapply Spec.inline_image_faults; [eassumption|].
        rewrite Ho. apply faults_raisebase.
    + apply Spec.decode_faults. rewrite Hd. apply faults_raise.
    + apply Spec.decode_faults. rewrite Hd. apply faults_raisebase.
  - destruct (requests_get W url 10) as [r|e|cls msg] eqn:Hg.
    + destruct (Image_open W (content r)) as [image|e|cls msg] eqn:Ho.
      * eapply Spec.opens_remote; eassumption.
      * eapply Spec.remote_image_faults; [eassumption|].
        rewrite Ho. apply faults_raise.
      * eapply Spec.remote_image_faults; [eassumption|].
        rewrite Ho. apply faults_raisebase.
    + apply Spec.fetch_faults. rewrite Hg. apply faults_raise.
    + apply Spec.fetch_faults. rewrite Hg. apply faults_raisebase.
Qed.

Lemma opens_resolver (src : Spec.source) (image : Image) t :
  Spec.opens W src image -> fst (resolver W src t) = Return image.
Proof.
  intros [text bytes image' Hd Ho|url r image' Hg Ho]; cbn [resolver];
    unfold get_image_from_base64, get_image_from_url;
    rewrite fst_bind_run; cbn [call fst snd].
  - now rewrite Hd.
  - now rewrite Hg.
Qed.


(** *** Resolving a reference of a compare request *)

Lemma image_of_ref_cases (ref : json) t :
  match fst (image_of_ref W ref t) with
  | Return image => Spec.resolves W ref image
  | Raise e => Spec.resolve_faults W ref (Spec.Error e)
  | RaiseBase cls msg => Spec.resolve_faults W ref (Spec.Signal cls msg)
  end.
Proof.
  unfold image_of_ref. rewrite fst_bind_run. cbn [lift fst snd].
  destruct (contains "base64" ref) as [[|]|e|cls msg] eqn:Hc.
  - rewrite fst_bind_run. cbn [lift fst snd].
    destruct (getitem ref "base64") as [v|e|cls msg] eqn:Hv.
    + pose proof (resolver_cases (Spec.Inline v) t) as Hres.
      cbn [resolver] in Hres.
      destruct (fst (get_image_from_base64 W v t)) as [image|e|cls msg].
      * eapply Spec.resolves_intro; [|exact Hres]. now apply Spec.ref_inline.
      * eapply Spec.ref_open_faults; [|exact Hres]. now apply Spec.ref_inline.
      * eapply Spec.ref_open_faults; [|exact Hres]. now apply Spec.ref_inline.
    + apply Spec.ref_inline_read_faults; [assumption|].
      rewrite Hv. apply faults_raise.
    + apply Spec.ref_inline_read_faults; [assumption|].
      rewrite Hv. apply faults_raisebase.
  - rewrite fst_bind_run. cbn [lift fst snd].
    destruct (getitem ref "url") as [v|e|cls msg] eqn:Hv.
    + pose proof (resolver_cases (Spec.Remote v) t) as Hres.
      cbn [resolver] in Hres.
      destruct (fst (get_image_from_url W v t)) as [image|e|cls msg].
      * eapply Spec.resolves_intro; [|exact Hres]. now apply Spec.ref_remote.
      * eapply Spec.ref_open_faults; [|exact Hres]. now apply Spec.ref_remote.
      * eapply Spec.ref_open_faults; [|exact Hres]. now apply Spec.ref_remote.
    + apply Spec.ref_remote_read_faults; [assumption|].
      rewrite Hv. apply faults_raise.
    + apply Spec.ref_remote_read_faults; [assumption|].
      rewrite Hv. apply faults_raisebase.
  - apply Spec.ref_test_faults. rewrite Hc. apply faults_raise.
  - apply Spec.ref_test_faults. rewrite Hc. apply faults_raisebase.
Qed.

Lemma ref_source_run (ref : json) (src : Spec.source) t :
  Spec.ref_source ref src ->
  fst (image_of_ref W ref t) = fst (resolver W src t).
Proof.
  intros [text Hc Hv|url Hc Hv]; unfold image_of_ref;
    rewrite fst_bind_run; cbn [lift fst snd]; rewrite Hc;
    rewrite fst_bind_run; cbn [lift fst snd]; rewrite Hv; reflexivity.
Qed.

Lemma resolves_image_of_ref (ref : json) (image : Image) t :
  Spec.resolves W ref image -> fst (image_of_ref W ref t) = Return image.
Proof.
  intros [src Hsrc Hopen].
  rewrite (ref_source_run ref src t Hsrc). now apply opens_resolver.
Qed.


(** *** The body of [embed_image] *)

Lemma embed_reply_cases (image : Image) t :
  fst (embed_reply W image t) =
    match model_encode W image with
    | Return emb =>
        Return (jsonify {[ "embedding" := JArr (map JFloat (map float emb));
                           "dimension" := JInt (Z.of_nat (length emb)) ]} 200)
    | Raise e => Raise e
    | RaiseBase cls msg => RaiseBase cls msg
    end.
Proof.
  unfold embed_reply, encode. rewrite fst_bind_run. cbn [call fst snd].
  destruct (model_encode W image) as [emb|e|cls msg]; try reflexivity.
  cbn [ret fst]. now rewrite length_map.
Qed.

Lemma embed_source_run (req : request) (data : json) (src : Spec.source) t :
  request_json req = Return data ->
  Spec.embed_source data src ->
  fst (embed_body W req t) =
    match fst (resolver W src t) with
    | Return image => fst (embed_reply W image (snd (resolver W src t)))
    | Raise e => Raise e
    | RaiseBase cls msg => RaiseBase cls msg
    end.
Proof.
  intros Hreq [text Hc Hv|url Hc Hu Hv]; unfold embed_body;
    rewrite fst_bind_run; cbn [lift fst snd]; rewrite Hreq;
    rewrite fst_bind_run; cbn [lift fst snd]; rewrite Hc.
  - rewrite fst_bind_run. cbn [lift fst snd]. rewrite Hv.
    now rewrite fst_bind_run.
  - rewrite fst_bind_run. cbn [lift fst snd]. rewrite Hu.
    rewrite fst_bind_run. cbn [lift fst snd]. rewrite Hv.
    now rewrite fst_bind_run.
Qed.

(** How the body of [embed_image] ends: with the 400 reply when the
    body names no image, with the embedding of the image it names, or
    with the fault of the step that failed. *)
Lemma embed_body_cases (req : request) t :
  match fst (embed_body W req t) with
  | Return resp =>
      (resp = jsonify {[ "error" := JStr "No image provided" ]} 400 /\
       exists data, request_json req = Return data /\
                    contains "image" data = Return false /\
                    contains "imageUrl" data = Return false) \/
      (exists image emb,
          Spec.embedded W req image emb /\
          resp = jsonify {[ "embedding" := JArr (map JFloat (map float emb));
                            "dimension" := JInt (Z.of_nat (length emb)) ]} 200)
  | Raise e => Spec.embed_faults W req (Spec.Error e)
  | RaiseBase cls msg => Spec.embed_faults W req (Spec.Signal cls msg)
  end.
Proof.
  assert (Hsrc : forall data src,
             request_json req = Return data -> Spec.embed_source data src ->
             match fst (embed_body W req t) with
             | Return resp =>
                 exists image emb,
                   Spec.embedded W req image emb /\
                   resp = jsonify {[ "embedding" := JArr (map JFloat (map float emb));
                                     "dimension" := JInt (Z.of_nat (length emb)) ]} 200
             | Raise e => Spec.embed_faults W req (Spec.Error e)
             | RaiseBase cls msg => Spec.embed_faults W req (Spec.Signal cls msg)
             end).
  { intros data src Hreq Hs.
    rewrite (embed_source_run req data src t Hreq Hs).
    pose proof (resolver_cases src t) as Hres.
    destruct (fst (resolver W src t)) as [image|e|cls msg];
      [|eapply Spec.embed_resolution_faults; eassumption..].
    rewrite embed_reply_cases.
    destruct (model_encode W image) as [emb|e|cls msg] eqn:He.
    - exists image, emb. split; [|reflexivity].
      eapply Spec.embedded_intro; eassumption.
    - eapply Spec.embed_inference_faults; [eassumption..|].
      rewrite He. apply faults_raise.
    - eapply Spec.embed_inference_faults; [eassumption..|].
      rewrite He. apply faults_raisebase. }
  destruct (request_json req) as [data|e|cls msg] eqn:Hreq.
  - destruct (contains "image" data) as [[|]|e|cls msg] eqn:Hc.
    + destruct (getitem data "image") as [v|e|cls msg] eqn:Hv.
      * specialize (Hsrc data (Spec.Inline v) eq_refl
                      (Spec.embed_inline data v Hc Hv)).
        destruct (fst (embed_body W req t)); [right|..]; exact Hsrc.
      * unfold embed_body. rewrite fst_bind_run. cbn [lift fst snd]. rewrite Hreq.
        rewrite fst_bind_run. cbn [lift fst snd]. rewrite Hc.
        rewrite fst_bind_run. cbn [lift fst snd]. rewrite Hv.
        eapply Spec.embed_fields_faults; [eassumption|].
        apply Spec.embed_image_read_faults; [assumption|].
        rewrite Hv. apply faults_raise.
      * unfold embed_body. rewrite fst_bind_run. cbn [lift fst snd]. rewrite Hreq.
        rewrite fst_bind_run. cbn [lift fst snd]. rewrite Hc.
        rewrite fst_bind_run. cbn [lift fst snd]. rewrite Hv.
        eapply Spec.embed_fields_faults; [eassumption|].
        apply Spec.embed_image_read_faults; [assumption|].
        rewrite Hv. apply faults_raisebase.
    + destruct (contains "imageUrl" data) as [[|]|e|cls msg] eqn:Hu.
      * destruct (getitem data "imageUrl") as [v|e|cls msg] eqn:Hv.
        -- specialize (Hsrc data (Spec.Remote v) eq_refl
                         (Spec.embed_remote data v Hc Hu Hv)).
           destruct (fst (embed_body W req t)); [right|..]; exact Hsrc.
        -- unfold embed_body. rewrite fst_bind_run. cbn [lift fst snd].
           rewrite Hreq, fst_bind_run. cbn [lift fst snd].
           rewrite Hc, fst_bind_run. cbn [lift fst snd].
           rewrite Hu, fst_bind_run. cbn [lift fst snd]. rewrite Hv.
           eapply Spec.embed_fields_faults; [eassumption|].
           apply Spec.embed_url_read_faults; [assumption..|].
           rewrite Hv. apply faults_raise.
        -- unfold embed_body. rewrite fst_bind_run. cbn [lift fst snd].
           rewrite Hreq, fst_bind_run. cbn [lift fst snd].
           rewrite Hc, fst_bind_run. cbn [lift fst snd].
           rewrite Hu, fst_bind_run. cbn [lift fst snd]. rewrite Hv.
           eapply Spec.embed_fields_faults; [eassumption|].
           apply Spec.embed_url_read_faults; [assumption..|].
           rewrite Hv. apply faults_raisebase.
      * unfold embed_body. rewrite fst_bind_run. cbn [lift fst snd].
        rewrite Hreq, fst_bind_run. cbn [lift fst snd].
        rewrite Hc, fst_bind_run. cbn [lift fst snd]. rewrite Hu.
        cbn [ret fst]. left. split; [reflexivity|].
        exists data. now repeat split.
      * unfold embed_body. rewrite fst_bind_run. cbn [lift fst snd].
        rewrite Hreq, fst_bind_run. cbn [lift fst snd].
        rewrite Hc, fst_bind_run. cbn [lift fst snd]. rewrite Hu.
        eapply Spec.embed_fields_faults; [eassumption|].
        apply Spec.embed_url_test_faults; [assumption|].
        rewrite Hu. apply faults_raise.
      * unfold embed_body. rewrite fst_bind_run. cbn [lift fst snd].
        rewrite Hreq, fst_bind_run. cbn [lift fst snd].
        rewrite Hc, fst_bind_run. cbn [lift fst snd]. rewrite Hu.
        eapply Spec.embed_fields_faults; [eassumption|].
        apply Spec.embed_url_test_faults; [assumption|].
        rewrite Hu. apply faults_raisebase.
    + unfold embed_body. rewrite fst_bind_run. cbn [lift fst snd].
      rewrite Hreq, fst_bind_run. cbn [lift fst snd]. rewrite Hc.
      eapply Spec.embed_fields_faults; [eassumption|].
      apply Spec.embed_image_test_faults. rewrite Hc. apply faults_raise.
    + unfold embed_body. rewrite fst_bind_run. cbn [lift fst snd].
      rewrite Hreq, fst_bind_run. cbn [lift fst snd]. rewrite Hc.
      eapply Spec.embed_fields_faults; [eassumption|].
      apply Spec.embed_image_test_faults. rewrite Hc. apply faults_raisebase.
  - unfold embed_body. rewrite fst_bind_run. cbn [lift fst snd]. rewrite Hreq.
    apply Spec.embed_json_faults. rewrite Hreq. apply faults_raise.
  - unfold embed_body. rewrite fst_bind_run. cbn [lift fst snd]. rewrite Hreq.
    apply Spec.embed_json_faults. rewrite Hreq. apply faults_raisebase.
Qed.

Lemma embedded_embed_body (req : request) (image : Image) (emb : list spec_float) t :
  Spec.embedded W req image emb ->
  fst (embed_body W req t) =
    Return (jsonify {[ "embedding" := JArr (map JFloat (map float emb));
                       "dimension" := JInt (Z.of_nat (length emb)) ]} 200).
Proof.
  intros [data src Hreq Hs Hopen Henc].
  rewrite (embed_source_run req data src t Hreq Hs).
  rewrite (opens_resolver src image t Hopen), embed_reply_cases.
  now rewrite Henc.
Qed.

End Refinement.

(** *** The body of [compare_images] *)

Ltac run_fst := rewrite fst_bind_run; cbn [lift call fst snd].

Ltac fault_of H :=
  rewrite H; first [apply faults_raise | apply faults_raisebase].


Section CompareRefinement.
Context {Image : Type} (W : world Image).
Implicit Types t : list (event Image).

Lemma load_embeddings_cases (req : request) (data : json) t :
  request_json req = Return data ->
  Spec.both_present data ->
  match fst (load_embeddings W data t) with
  | Return embs => Spec.compared W req (fst embs) (snd embs)
  | Raise e => Spec.compare_faults W req (Spec.Error e)
  | RaiseBase cls msg => Spec.compare_faults W req (Spec.Signal cls msg)
  end.
Proof.
  intros Hreq Hboth. unfold load_embeddings. run_fst.
  destruct (getitem data "image1") as [ref1|e|cls msg] eqn:H1;
    [|eapply Spec.compare_first_read_faults; [eassumption..|fault_of H1]..].
  run_fst.
  pose proof (image_of_ref_cases W ref1 t) as Hr1.
  destruct (fst (image_of_ref W ref1 t)) as [img1|e|cls msg];
    [|eapply Spec.compare_first_resolution_faults; eassumption..].
  run_fst.
  destruct (getitem data "image2") as [ref2|e|cls msg] eqn:H2;
    [|eapply Spec.compare_second_read_faults; [eassumption..|fault_of H2]..].
  run_fst.
  pose proof (image_of_ref_cases W ref2 (snd (image_of_ref W ref1 t))) as Hr2.
  destruct (fst (image_of_ref W ref2 (snd (image_of_ref W ref1 t))))
    as [img2|e|cls msg];
    [|eapply Spec.compare_second_resolution_faults; eassumption..].
  unfold encode. run_fst.
  destruct (model_encode W img1) as [emb1|e|cls msg] eqn:He1;
    [|eapply Spec.compare_first_inference_faults; [eassumption..|fault_of He1]..].
  run_fst.
  destruct (model_encode W img2) as [emb2|e|cls msg] eqn:He2;
    [|eapply Spec.compare_second_inference_faults;
       [eassumption..|fault_of He2]..].
  cbn [ret fst snd]. eapply Spec.compared_intro; eassumption.
Qed.

Lemma compared_load_embeddings (req : request) (data : json)
      (emb1 emb2 : list spec_float) t :
  request_json req = Return data ->
  Spec.compared W req emb1 emb2 ->
  fst (load_embeddings W data t) = Return (emb1, emb2).
Proof.
  intros Hreq [data' ref1 ref2 img1 img2 Hreq' _ H1 Hr1 H2 Hr2 He1 He2].
  rewrite Hreq in Hreq'. injection Hreq' as <-.
  unfold load_embeddings. run_fst. rewrite H1. run_fst.
  rewrite (resolves_image_of_ref W ref1 img1 t Hr1). run_fst.
  rewrite H2. run_fst.
  rewrite (resolves_image_of_ref W ref2 img2 _ Hr2).
  unfold encode. run_fst. rewrite He1. run_fst. now rewrite He2.
Qed.

Lemma compare_body_present_run (req : request) (data : json) t :
  request_json req = Return data ->
  Spec.both_present data ->
  fst (compare_body W req t) =
    match fst (load_embeddings W data t) with
    | Return embs =>
        fst (compare_reply W (fst embs) (snd embs) (snd (load_embeddings W data t)))
    | Raise e => Raise e
    | RaiseBase cls msg => RaiseBase cls msg
    end.
Proof.
  intros Hreq [H1 H2]. unfold compare_body. run_fst. rewrite Hreq. run_fst.
  rewrite H1. cbn [negb]. run_fst. rewrite H2. cbn [negb].
  now rewrite fst_bind_run.
Qed.

Lemma compare_reply_cases (emb1 emb2 : list spec_float) t :
  fst (compare_reply W emb1 emb2 t) =
    if Nat.eqb (length emb1) (length emb2)
    then Return (similarity_reply (float (cosine_similarity W emb1 emb2)))
    else Raise (shape_error (length emb1) (length emb2)).
Proof.
  unfold compare_reply, np_dot. run_fst.
  destruct (Nat.eqb (length emb1) (length emb2)); reflexivity.
Qed.

(** How the body of [compare_images] ends: with the 400 reply when a
    field is missing, with the reply built from the two embeddings, or
    with the fault of the step that failed. *)
Lemma compare_body_cases (req : request) t :
  match fst (compare_body W req t) with
  | Return resp =>
      (resp = jsonify {[ "error" := JStr "Both images required" ]} 400 /\
       exists data, request_json req = Return data /\
                    (contains "image1" data = Return false \/
                     contains "image2" data = Return false)) \/
      (exists emb1 emb2,
          Spec.compared W req emb1 emb2 /\
          length emb1 = length emb2 /\
          resp = similarity_reply (float (cosine_similarity W emb1 emb2)))
  | Raise e => Spec.compare_faults W req (Spec.Error e)
  | RaiseBase cls msg => Spec.compare_faults W req (Spec.Signal cls msg)
  end.
Proof.
  destruct (request_json req) as [data|e|cls msg] eqn:Hreq;
    [|unfold compare_body; run_fst; rewrite Hreq;
      apply Spec.compare_json_faults; fault_of Hreq..].
  destruct (contains "image1" data) as [[|]|e|cls msg] eqn:H1.
  - destruct (contains "image2" data) as [[|]|e|cls msg] eqn:H2.
    + rewrite (compare_body_present_run req data t Hreq (conj H1 H2)).
      pose proof (load_embeddings_cases req data t Hreq (conj H1 H2)) as Hload.
      destruct (fst (load_embeddings W data t)) as [[emb1 emb2]|e|cls msg];
        [|exact Hload..].
      cbn [fst snd] in *. rewrite compare_reply_cases.
      destruct (Nat.eqb (length emb1) (length emb2)) eqn:Hlen.
      * right. exists emb1, emb2. apply Nat.eqb_eq in Hlen. now repeat split.
      * apply Nat.eqb_neq in Hlen. now apply Spec.compare_shape_faults.
    + unfold compare_body; run_fst; rewrite Hreq; run_fst; rewrite H1;
        cbn [negb]; run_fst; rewrite H2; cbn [negb ret fst].
      left. split; [reflexivity|]. exists data. split; [reflexivity|]. now right.
    + unfold compare_body; run_fst; rewrite Hreq; run_fst; rewrite H1;
        cbn [negb]; run_fst; rewrite H2.
      eapply Spec.compare_second_test_faults; [eassumption..|fault_of H2].
    + unfold compare_body; run_fst; rewrite Hreq; run_fst; rewrite H1;
        cbn [negb]; run_fst; rewrite H2.
      eapply Spec.compare_second_test_faults; [eassumption..|fault_of H2].
  - unfold compare_body; run_fst; rewrite Hreq; run_fst; rewrite H1;
      cbn [negb ret fst].
    left. split; [reflexivity|]. exists data. split; [reflexivity|]. now left.
  - unfold compare_body; run_fst; rewrite Hreq; run_fst; rewrite H1.
    eapply Spec.compare_first_test_faults; [eassumption|fault_of H1].
  - unfold compare_body; run_fst; rewrite Hreq; run_fst; rewrite H1.
    eapply Spec.compare_first_test_faults; [eassumption|fault_of H1].
Qed.

Lemma compared_present (req : request) (emb1 emb2 : list spec_float) :
  Spec.compared W req emb1 emb2 ->
  exists data, request_json req = Return data /\ Spec.both_present data.
Proof. intros [data ? ? ? ? Hreq Hboth]. now exists data. Qed.

Lemma compared_compare_body (req : request) (emb1 emb2 : list spec_float) t :
  Spec.compared W req emb1 emb2 ->
  fst (compare_body W req t) =
    if Nat.eqb (length emb1) (length emb2)
    then Return (similarity_reply (float (cosine_similarity W emb1 emb2)))
    else Raise (shape_error (length emb1) (length emb2)).
Proof.
  intros Hcmp. destruct (compared_present req emb1 emb2 Hcmp) as (data & Hreq & Hboth).
  rewrite (compare_body_present_run req data t Hreq Hboth).
  rewrite (compared_load_embeddings req data emb1 emb2 t Hreq Hcmp).
  cbn [fst snd]. apply compare_reply_cases.
Qed.

End CompareRefinement.

(** ** Replies and the specification *)

Section Replies.
Context {Image : Type} (W : world Image).
Implicit Types t : list (event Image).

Lemma cosine_similarity_spec (emb1 emb2 : list spec_float) :
  cosine_similarity W emb1 emb2 = Spec.cosine W emb1 emb2.
Proof. reflexivity. Qed.




(** X1.  An embed request answered with status 200 named an image
    (inline, or by address when no inline image is given), that image
    was opened, and the reply carries the vector the model returned for
    that image, each component converted to [float], with
    ["dimension"] the number of components.  Conversely that reply is
    given whenever the named image opens and the model returns a
    vector for it. *)
Theorem embed_image_success (req : request) t :
  (forall resp,
      fst (embed_image W req t) = Return resp ->
      status resp = 200 ->
      exists image emb,
        Spec.embedded W req image emb /\
        resp = jsonify {[ "embedding" := JArr (map JFloat (map float emb));
                          "dimension" := JInt (Z.of_nat (length emb)) ]} 200) /\
  (forall image emb,
      Spec.embedded W req image emb ->
      fst (embed_image W req t) =
        Return (jsonify {[ "embedding" := JArr (map JFloat (map float emb));
                           "dimension" := JInt (Z.of_nat (length emb)) ]} 200)).
Proof.
  split.
  - intros resp. unfold embed_image. rewrite fst_try_except.
    pose proof (embed_body_cases W req t) as Hcases.
    destruct (fst (embed_body W req t)) as [r|e|cls msg];
      [|intros [= <-]; discriminate|discriminate].
    intros [= <-] Hst.
    destruct Hcases as [[-> _]|(image & emb & Hemb & ->)]; [discriminate|].
    now exists image, emb.
  - intros image emb Hemb. unfold embed_image. rewrite fst_try_except.
    now rewrite (embedded_embed_body W req image emb t Hemb).
Qed.
End Replies.

(** ** Quotients of magnitude at most one *)

(** IEEE division and conversion, at any precision: when the exact
    quotient has magnitude at most one, so has the rounded one. *)










Section Bounds.
Variables prec emax : Z.
Hypothesis Hprec : 0 < prec.
Hypothesis Hemax : 2 <= emax.







End Bounds.





Section Bounded.
Context {Image : Type} (W : world Image).
Implicit Types t : list (event Image).

End Bounded.

(** ** Library calls of a request *)

(** Case analysis on every outcome a run goes through. *)
Ltac run_cases :=
  repeat (cbn beta iota;
          match goal with
          | |- context [match ?o with
                        | Return _ => _ | Raise _ => _ | RaiseBase _ _ => _
                        end] => destruct o
          | |- context [if ?b then _ else _] => is_var b; destruct b
          | |- context [negb ?b] => is_var b; destruct b
          end).

Section Budget.
Context {Image : Type} (W : world Image).
Implicit Types t : list (event Image).

Lemma follows_nil (log : list (event Image)) :
  follows [] log = true -> log = [].
Proof. destruct log; [reflexivity|discriminate]. Qed.

(** X10.  An embed request extends the log by at most three library
    calls, in this order: first one [b64decode] or one [requests.get]
    (a fetch with [timeout=10]), then [Image.open], then
    [model.encode]; the log stops where a step fails.  So there is at
    most one decode or fetch, [Image.open] never comes before it and
    [model.encode] never before [Image.open]. *)
Theorem embed_image_calls (req : request) t :
  exists new,
    snd (embed_image W req t) = t ++ new /\
    follows [is_resolver_call; is_open; is_inference] new = true /\
    (length new <= 3)%nat /\
    (count_calls is_decode new + count_calls is_fetch new <= 1)%nat /\
    (count_calls is_open new
     <= count_calls is_decode new + count_calls is_fetch new)%nat /\
    (count_calls is_inference new <= count_calls is_open new)%nat /\
    timeouts_are_10 new = true.
Proof.
  exists (snd (embed_body W req [])). split; [apply embed_image_log|].
  unfold embed_body, get_image_from_base64, get_image_from_url, embed_reply,
    encode, bind, lift, call, ret.
  run_cases; cbn; repeat split; lia.
Qed.

Lemma image_of_ref_log (ref : json) :
  let run := image_of_ref W ref [] in
  follows [is_resolver_call; is_open] (snd run) = true /\
  timeouts_are_10 (snd run) = true /\
  count_calls is_inference (snd run) = 0%nat /\
  (count_calls is_decode (snd run) + count_calls is_fetch (snd run) <= 1)%nat /\
  (count_calls is_open (snd run)
   <= count_calls is_decode (snd run) + count_calls is_fetch (snd run))%nat /\
  (length (snd run) <= 2)%nat /\
  (forall image, fst run = Return image ->
     exists ev1 ev2,
       snd run = [ev1; ev2] /\
       is_resolver_call ev1 = true /\ is_open ev1 = false /\
       is_inference ev1 = false /\
       is_open ev2 = true /\ is_resolver_call ev2 = false /\
       is_decode ev2 = false /\ is_fetch ev2 = false /\
       is_inference ev2 = false).
Proof.
  unfold image_of_ref, get_image_from_base64, get_image_from_url,
    bind, lift, call.
  run_cases; cbn; repeat split; try lia; try discriminate;
    intros image Himg; eexists _, _; repeat split.
Qed.

Lemma follows_shorter (p : list (event Image -> bool))
      (rest : list (event Image -> bool)) (log : list (event Image)) :
  follows p log = true -> follows (p ++ rest) log = true.
Proof.
  revert log. induction p as [|k p IH]; intros log H.
  - apply follows_nil in H. subst log. destruct rest; reflexivity.
  - destruct log as [|ev log]; [reflexivity|]. cbn in *.
    apply andb_true_iff in H as [-> H]. now apply IH.
Qed.

Lemma timeouts_are_10_app (l1 l2 : list (event Image)) :
  timeouts_are_10 (l1 ++ l2) = timeouts_are_10 l1 && timeouts_are_10 l2.
Proof. apply forallb_app. Qed.

(** The log of a reference that resolved. *)
Lemma image_of_ref_returns (ref : json) (image : Image) :
  fst (image_of_ref W ref []) = Return image ->
  (exists s bytes,
      snd (image_of_ref W ref []) = [Call_b64decode s; Call_Image_open bytes]) \/
  (exists url bytes,
      snd (image_of_ref W ref []) =
        [Call_requests_get url 10; Call_Image_open bytes]).
Proof.
  unfold image_of_ref, get_image_from_base64, get_image_from_url,
    bind, lift, call.
  run_cases; cbn; try discriminate; intros _;
    first [left; eexists _, _; reflexivity | right; eexists _, _; reflexivity].
Qed.

(** The calls of lines 71-84. *)
Lemma load_embeddings_log (data : json) :
  let run := load_embeddings W data [] in
  follows [is_resolver_call; is_open; is_resolver_call; is_open;
           is_inference; is_inference] (snd run) = true /\
  timeouts_are_10 (snd run) = true /\
  (length (snd run) <= 6)%nat /\
  (count_calls is_decode (snd run) + count_calls is_fetch (snd run) <= 2)%nat /\
  (count_calls is_open (snd run)
   <= count_calls is_decode (snd run) + count_calls is_fetch (snd run))%nat /\
  (count_calls is_inference (snd run) <= 2)%nat /\
  ((0 < count_calls is_inference (snd run))%nat ->
   count_calls is_open (snd run) = 2%nat) /\
  (forall embs, fst run = Return embs ->
     length (snd run) = 6%nat /\
     count_calls is_open (snd run) = 2%nat /\
     count_calls is_inference (snd run) = 2%nat).
Proof.
  cbn zeta. unfold load_embeddings.
  destruct (getitem data "image1") as [ref1|e|cls msg]; run_step;
    [|cbn; repeat split; solve [lia | discriminate]..].
  destruct (image_of_ref_log ref1) as (Hf1 & Ht1 & Hi1 & Hdf1 & Ho1 & Hl1 & _).
  pose proof (image_of_ref_returns ref1) as Hr1.
  cbn zeta in *.
  destruct (image_of_ref W ref1 []) as [[img1|e|cls msg] n1] eqn:Hrun1;
    cbn [fst snd] in *.
  2: { rewrite (bind_raise _ _ _ _ _ Hrun1). cbn [fst snd].
       repeat split; try lia; try discriminate; try assumption.
       now apply (follows_shorter [is_resolver_call; is_open]). }
  2: { rewrite (bind_raisebase _ _ _ _ _ _ Hrun1). cbn [fst snd].
       repeat split; try lia; try discriminate; try assumption.
       now apply (follows_shorter [is_resolver_call; is_open]). }
  rewrite (bind_return _ _ _ _ _ Hrun1).
  clear Hf1 Ht1 Hi1 Hdf1 Ho1 Hl1.
  destruct (getitem data "image2") as [ref2|e|cls msg]; run_step;
    [|destruct (Hr1 img1 eq_refl) as [(s1 & b1 & ->)|(u1 & b1 & ->)];
      cbn; repeat split; solve [lia | discriminate]..].
  destruct (image_of_ref_log ref2) as (Hf2 & Ht2 & Hi2 & Hdf2 & Ho2 & Hl2 & _).
  pose proof (image_of_ref_returns ref2) as Hr2.
  cbn zeta in *.
  pose proof (appends_image_of_ref W ref2 n1) as Hrun2.
  destruct (image_of_ref W ref2 []) as [[img2|e|cls msg] n2];
    cbn [fst snd] in *.
  - rewrite (bind_return _ _ _ _ _ Hrun2).
    unfold encode, bind, call, ret.
    destruct (Hr1 img1 eq_refl) as [(s1 & b1 & ->)|(u1 & b1 & ->)];
      destruct (Hr2 img2 eq_refl) as [(s2 & b2 & ->)|(u2 & b2 & ->)];
      (destruct (model_encode W img1) as [emb1|e|cls msg];
       [destruct (model_encode W img2) as [emb2|e|cls msg]|..]);
      cbn; repeat split; solve [lia | discriminate].
  - rewrite (bind_raise _ _ _ _ _ Hrun2). cbn [fst snd].
    apply (follows_shorter _ [is_inference; is_inference]) in Hf2.
    destruct (Hr1 img1 eq_refl) as [(s1 & b1 & ->)|(u1 & b1 & ->)];
      cbn in *; repeat split; solve [lia | discriminate | assumption].
  - rewrite (bind_raisebase _ _ _ _ _ _ Hrun2). cbn [fst snd].
    apply (follows_shorter _ [is_inference; is_inference]) in Hf2.
    destruct (Hr1 img1 eq_refl) as [(s1 & b1 & ->)|(u1 & b1 & ->)];
      cbn in *; repeat split; solve [lia | discriminate | assumption].
Qed.
End Budget.

Section HandlerBudget.
Context {Image : Type} (W : world Image).
Implicit Types t : list (event Image).

Lemma compare_body_log (req : request) :
  snd (compare_body W req []) = [] \/
  exists data,
    request_json req = Return data /\
    snd (compare_body W req []) = snd (load_embeddings W data []) /\
    (forall resp, fst (compare_body W req []) = Return resp ->
       status resp = 200 ->
       exists embs, fst (load_embeddings W data []) = Return embs).
Proof.
  unfold compare_body.
  destruct (request_json req) as [data|e|cls msg]; run_step; [|now left..].
  destruct (contains "image1" data) as [[|]|e|cls msg]; run_step; cbn [negb];
    [|now left..].
  destruct (contains "image2" data) as [[|]|e|cls msg]; run_step; cbn [negb];
    [|now left..].
  right. exists data. split; [reflexivity|].
  destruct (load_embeddings W data []) as [[embs|e|cls msg] new] eqn:Hrun.
  - rewrite (bind_return _ _ _ _ _ Hrun). cbn [fst snd].
    rewrite compare_reply_run.
    destruct (np_dot W (fst embs) (snd embs)); cbn [fst snd];
      (split; [reflexivity|]); intros; now exists embs.
  - rewrite (bind_raise _ _ _ _ _ Hrun). cbn [fst snd].
    split; [reflexivity|]. discriminate.
  - rewrite (bind_raisebase _ _ _ _ _ _ Hrun). cbn [fst snd].
    split; [reflexivity|]. discriminate.
Qed.

(** X11.  A compare request extends the log by at most six library
    calls, in this order: a decode or fetch (with [timeout=10]) and
    [Image.open] for ["image1"], the same two for ["image2"], then
    [model.encode] twice; the log stops where a step fails.  So there
    are at most two decodes or fetches, each [Image.open] follows its
    own decode or fetch, and [model.encode] is not called unless both
    images have been opened. *)
Theorem compare_images_calls (req : request) t :
  exists new,
    snd (compare_images W req t) = t ++ new /\
    follows [is_resolver_call; is_open; is_resolver_call; is_open;
             is_inference; is_inference] new = true /\
    (length new <= 6)%nat /\
    (count_calls is_decode new + count_calls is_fetch new <= 2)%nat /\
    (count_calls is_open new
     <= count_calls is_decode new + count_calls is_fetch new)%nat /\
    (count_calls is_inference new <= 2)%nat /\
    timeouts_are_10 new = true /\
    ((0 < count_calls is_inference new)%nat -> count_calls is_open new = 2%nat).
Proof.
  exists (snd (compare_body W req [])). split; [apply compare_images_log|].
  destruct (compare_body_log req) as [->|(data & _ & -> & _)].
  - cbn. repeat split; lia.
  - destruct (load_embeddings_log W data) as (Hf & Ht & Hl & Hdf & Ho & Hi & Hio & _).
    cbn zeta in *. repeat split; assumption.
Qed.

(** X12.  The status of a reply tells how far the handler went.  A 400
    is issued before any library call.  A 200 from embed means exactly
    three calls, with one [Image.open] and one [model.encode]; a 200
    from compare means exactly six, with two of each. *)
Theorem status_reflects_calls (req : request) t :
  (status_of (fst (embed_image W req t)) = Some 400 ->
   snd (embed_image W req t) = t) /\
  (status_of (fst (embed_image W req t)) = Some 200 ->
   exists new,
     snd (embed_image W req t) = t ++ new /\ length new = 3%nat /\
     count_calls is_open new = 1%nat /\ count_calls is_inference new = 1%nat) /\
  (status_of (fst (compare_images W req t)) = Some 400 ->
   snd (compare_images W req t) = t) /\
  (status_of (fst (compare_images W req t)) = Some 200 ->
   exists new,
     snd (compare_images W req t) = t ++ new /\ length new = 6%nat /\
     count_calls is_open new = 2%nat /\ count_calls is_inference new = 2%nat).
Proof.
  assert (Hembed :
    (status_of (fst (embed_image W req [])) = Some 400 ->
     snd (embed_body W req []) = []) /\
    (status_of (fst (embed_image W req [])) = Some 200 ->
     length (snd (embed_body W req [])) = 3%nat /\
     count_calls is_open (snd (embed_body W req [])) = 1%nat /\
     count_calls is_inference (snd (embed_body W req [])) = 1%nat)).
  { unfold embed_image, try_except, embed_body, get_image_from_base64,
      get_image_from_url, embed_reply, encode, bind, lift, call, ret.
    run_cases; cbn; split; solve [discriminate | reflexivity
                                 | intros _; repeat split]. }
  assert (Hcompare :
    (status_of (fst (compare_images W req [])) = Some 400 ->
     snd (compare_body W req []) = []) /\
    (status_of (fst (compare_images W req [])) = Some 200 ->
     length (snd (compare_body W req [])) = 6%nat /\
     count_calls is_open (snd (compare_body W req [])) = 2%nat /\
     count_calls is_inference (snd (compare_body W req [])) = 2%nat)).
  { unfold compare_images. rewrite fst_try_except.
    destruct (compare_body_log req) as [Hnil|(data & Hreq & Hlog & Hret)].
    - rewrite Hnil. split; [reflexivity|].
      pose proof (compare_body_cases W req []) as Hcases.
      destruct (fst (compare_body W req [])) as [resp|e|cls msg];
        cbn [status_of]; try discriminate.
      intros [= Hst].
      destruct Hcases as [[-> _]|(emb1 & emb2 & Hcmp & Hlen & ->)];
        [discriminate|].
      destruct (compared_present W req emb1 emb2 Hcmp) as (data & Hreq & Hboth).
      pose proof (compared_load_embeddings W req data emb1 emb2 [] Hreq Hcmp)
        as Hload.
      pose proof (compare_body_present_run W req data [] Hreq Hboth) as Hrun.
      destruct (load_embeddings_log W data) as (_ & _ & _ & _ & _ & _ & _ & Hsix).
      cbn zeta in Hsix. destruct (Hsix _ Hload) as (Hl & _).
      assert (Hsnd : snd (compare_body W req []) = snd (load_embeddings W data [])).
      { destruct (compare_body_log req) as [Hn|(data' & Hreq' & Hl' & _)].
        - unfold compare_body in Hnil |- *. rewrite Hreq in *.
          destruct Hboth as [H1 H2].
          rewrite bind_lift_return, H1, bind_lift_return in *. cbn [negb] in *.
          rewrite H2, bind_lift_return in *. cbn [negb] in *.
          unfold bind in *.
          destruct (load_embeddings W data []) as [[embs|e|cls msg] new];
            cbn [fst snd] in *; try discriminate.
          rewrite compare_reply_run in *.
          destruct (np_dot W (fst embs) (snd embs)); exact eq_refl.
        - rewrite Hreq in Hreq'. injection Hreq' as <-. exact Hl'. }
      rewrite Hsnd in Hnil. rewrite Hnil in Hl. discriminate.
    - rewrite Hlog.
      destruct (load_embeddings_log W data) as (_ & _ & _ & _ & _ & _ & _ & Hsix).
      cbn zeta in Hsix.
      destruct (fst (compare_body W req [])) as [resp|e|cls msg] eqn:Hbody;
        cbn [status_of]; [|split; discriminate..].
      split.
      + intros [= Hst].
        pose proof (compare_body_cases W req []) as Hcases. rewrite Hbody in Hcases.
        destruct Hcases as [[-> (data' & Hreq' & Hmiss)]
                           |(emb1 & emb2 & Hcmp & Hlen & ->)]; [|discriminate].
        rewrite Hreq in Hreq'. injection Hreq' as <-.
        rewrite <- Hlog. unfold compare_body. rewrite Hreq, bind_lift_return.
        destruct Hmiss as [H1|H2].
        * now rewrite H1, bind_lift_return.
        * destruct (contains "image1" data) as [[|]|e|cls msg]; run_step;
            cbn [negb]; try reflexivity.
          now rewrite H2, bind_lift_return.
      + intros [= Hst]. destruct (Hret resp eq_refl Hst) as [embs Hembs].
        exact (Hsix embs Hembs). }
  assert (Hst1 : fst (embed_image W req t) = fst (embed_image W req []))
    by apply (appends_fst _ t (appends_embed_image W req)).
  assert (Hst2 : fst (compare_images W req t) = fst (compare_images W req []))
    by apply (appends_fst _ t (appends_compare_images W req)).
  rewrite Hst1, Hst2, embed_image_log, compare_images_log.
  destruct Hembed as [He400 He200], Hcompare as [Hc400 Hc200].
  repeat split.
  - intros H. rewrite (He400 H). apply app_nil_r.
  - intros H. eexists. split; [reflexivity|]. exact (He200 H).
  - intros H. rewrite (Hc400 H). apply app_nil_r.
  - intros H. eexists. split; [reflexivity|]. exact (Hc200 H).
Qed.
End HandlerBudget.

(** ** Replies of the embed handler *)

Section EmbedReplies.
Context {Image : Type} (W : world Image).
Implicit Types t : list (event Image).

(** A body that is not JSON: [request.json] raises and the handler
    answers 500. *)
Lemma embed_image_bad_json (req : request) (e : exn) t :
  request_json req = Raise e ->
  embed_image W req t = (Return (jsonify {[ "error" := JStr (str e) ]} 500), t).
Proof.
  intros Hreq. unfold embed_image.
  erewrite try_except_raise; [reflexivity|].
  unfold embed_body. now rewrite Hreq.
Qed.

(** X3.  An ["image"] field that [b64decode] rejects fails the embed
    request with status 500 and the decoder's message.  The decode is
    the only library call made: [Image.open] is not reached and an
    ["imageUrl"] in the same request is not used as a fallback. *)
Lemma embed_image_bad_base64 (req : request) (d : gmap string json)
      (v : json) (e : exn) t :
  request_json req = Return (JObj d) ->
  d !! "image" = Some v ->
  b64decode W v = Raise e ->
  embed_image W req t =
    (Return (jsonify {[ "error" := JStr (str e) ]} 500), t ++ [Call_b64decode v]).
Proof.
  intros Hreq Hv He. unfold embed_image.
  erewrite try_except_raise; [reflexivity|].
  rewrite (embed_body_inline W req d v t Hreq Hv).
  unfold get_image_from_base64, bind, call. now rewrite He.
Qed.

(** X2.  The reply to an embed request depends on the image bytes only:
    an inline image that decodes to the bytes a fetch returns gets the
    reply of the request that names the address. *)
Theorem embed_image_same_bytes (req1 req2 : request)
        (d1 d2 : gmap string json) (v url : json) (r : http_response) t :
  request_json req1 = Return (JObj d1) ->
  d1 !! "image" = Some v ->
  request_json req2 = Return (JObj d2) ->
  d2 !! "image" = None ->
  d2 !! "imageUrl" = Some url ->
  b64decode W v = Return (content r) ->
  requests_get W url 10 = Return r ->
  fst (embed_image W req1 t) = fst (embed_image W req2 t).
Proof.
  intros Hreq1 Hv Hreq2 Hi Hu Hdec Hget.
  unfold embed_image, try_except.
  rewrite (embed_body_inline W req1 d1 v t Hreq1 Hv).
  rewrite (embed_body_remote W req2 d2 url t Hreq2 Hi Hu).
  unfold get_image_from_base64, get_image_from_url, bind, call.
  rewrite Hdec, Hget.
  destruct (Image_open W (content r)) as [image|e|cls msg]; [|reflexivity..].
  unfold embed_reply, encode, bind, call, ret.
  destruct (model_encode W image); reflexivity.
Qed.
End EmbedReplies.

(** ** Bodies that are not JSON objects *)

Section Bodies.
Context {Image : Type} (W : world Image).
Implicit Types t : list (event Image).

Lemma contains_scalar (key : string) (data : json) :
  is_scalar data = true -> exists e, contains key data = Raise e.
Proof. destruct data; try discriminate; intros _; eexists; reflexivity. Qed.

Lemma getitem_sequence (key : string) (data : json) :
  is_sequence data = true -> exists e, getitem data key = Raise e.
Proof. destruct data; try discriminate; intros _; eexists; reflexivity. Qed.

(** X4.  A request whose body cannot be read as JSON ([request.json]
    raises), or whose JSON body is [null], a boolean or a number, is
    answered with status 500 by both handlers, and no library call is
    made: the membership test itself raises. *)
Theorem scalar_body_rejected (req : request) t :
  (exists e, request_json req = Raise e) \/
  (exists data, request_json req = Return data /\ is_scalar data = true) ->
  (status_of (fst (embed_image W req t)) = Some 500 /\
   snd (embed_image W req t) = t) /\
  (status_of (fst (compare_images W req t)) = Some 500 /\
   snd (compare_images W req t) = t).
Proof.
  intros [[e Hreq]|(data & Hreq & Hsc)];
    unfold embed_image, compare_images, try_except, embed_body, compare_body;
    rewrite Hreq; repeat run_step.
  - repeat split.
  - destruct (contains_scalar "image" data Hsc) as [e1 H1].
    destruct (contains_scalar "image1" data Hsc) as [e2 H2].
    rewrite H1, H2. repeat run_step. repeat split.
Qed.

(** X5.  An embed request whose JSON body is an array or a string never
    reaches a library call.  It is answered 400 with "No image provided"
    when neither ["image"] nor ["imageUrl"] occurs in it (as an element
    of the array, as a substring of the string), and 500 when one of
    them does, because the body cannot be subscripted by it. *)
Theorem embed_image_sequence_body (req : request) (data : json) t :
  request_json req = Return data ->
  is_sequence data = true ->
  snd (embed_image W req t) = t /\
  (contains "image" data = Return false ->
   contains "imageUrl" data = Return false ->
   fst (embed_image W req t) =
     Return (jsonify {[ "error" := JStr "No image provided" ]} 400)) /\
  (contains "image" data = Return true \/ contains "imageUrl" data = Return true ->
   status_of (fst (embed_image W req t)) = Some 500).
Proof.
  intros Hreq Hseq.
  unfold embed_image, try_except, embed_body. rewrite Hreq. run_step.
  destruct data as [| | | |s|l|]; try discriminate Hseq; cbn [contains].
  - run_step. destruct (occurs_in "image" s); [cbn [getitem]; run_step|];
      [|run_step; destruct (occurs_in "imageUrl" s);
        [cbn [getitem]; run_step|]];
      cbn [fst snd status_of];
      repeat split; intros;
      first [reflexivity | discriminate
            | match goal with
              | H : _ \/ _ |- _ =>
                  destruct H as [H|H];
                  first [discriminate H | destruct H; discriminate]
              end].
  - run_step.
    destruct (existsb _ l); [cbn [getitem]; run_step|];
      [|run_step; destruct (existsb _ l);
        [cbn [getitem]; run_step|]];
      cbn [fst snd status_of];
      repeat split; intros;
      first [reflexivity | discriminate
            | match goal with
              | H : _ \/ _ |- _ =>
                  destruct H as [H|H];
                  first [discriminate H | destruct H; discriminate]
              end].
Qed.

(** X6.  The same for a compare request: 400 with "Both images required"
    when ["image1"] or ["image2"] does not occur in the array or string,
    500 when both occur; never a library call. *)
Theorem compare_images_sequence_body (req : request) (data : json) t :
  request_json req = Return data ->
  is_sequence data = true ->
  snd (compare_images W req t) = t /\
  (contains "image1" data = Return false \/
   (contains "image1" data = Return true /\ contains "image2" data = Return false) ->
   fst (compare_images W req t) =
     Return (jsonify {[ "error" := JStr "Both images required" ]} 400)) /\
  (contains "image1" data = Return true ->
   contains "image2" data = Return true ->
   status_of (fst (compare_images W req t)) = Some 500).
Proof.
  intros Hreq Hseq.
  unfold compare_images, try_except, compare_body. rewrite Hreq. run_step.
  destruct data as [| | | |s|l|]; try discriminate Hseq; cbn [contains].
  - run_step. destruct (occurs_in "image1" s); cbn [negb];
      [run_step; destruct (occurs_in "image2" s); cbn [negb];
       [unfold load_embeddings, bind, lift; cbn|]|];
      cbn [fst snd status_of];
      repeat split; intros;
      first [reflexivity | discriminate
            | match goal with
              | H : _ \/ _ |- _ =>
                  destruct H as [H|H];
                  first [discriminate H | destruct H; discriminate]
              end].
  - run_step. destruct (existsb _ l); cbn [negb];
      [run_step; destruct (existsb _ l); cbn [negb];
       [unfold load_embeddings, bind, lift; cbn|]|];
      cbn [fst snd status_of];
      repeat split; intros;
      first [reflexivity | discriminate
            | match goal with
              | H : _ \/ _ |- _ =>
                  destruct H as [H|H];
                  first [discriminate H | destruct H; discriminate]
              end].
Qed.
End Bodies.

(** ** Failures while comparing *)

Section CompareFailures.
Context {Image : Type} (W : world Image).
Implicit Types t : list (event Image).

(** X7.  In a compare request with both references present, the first
    failure decides the reply.  If resolving ["image1"] raises, the
    reply is 500 with that message and the log ends where that attempt
    ended: nothing is done for ["image2"].  If ["image1"] resolves and
    ["image2"] raises, the reply is 500 with the second message and the
    log ends there: the model is not called for either image. *)
Theorem compare_images_first_failure (req : request) (d : gmap string json)
        (ref1 ref2 : json) t :
  request_json req = Return (JObj d) ->
  d !! "image1" = Some ref1 ->
  d !! "image2" = Some ref2 ->
  (forall e t1,
      image_of_ref W ref1 t = (Raise e, t1) ->
      compare_images W req t =
        (Return (jsonify {[ "error" := JStr (str e) ]} 500), t1)) /\
  (forall img1 t1 e t2,
      image_of_ref W ref1 t = (Return img1, t1) ->
      image_of_ref W ref2 t1 = (Raise e, t2) ->
      compare_images W req t =
        (Return (jsonify {[ "error" := JStr (str e) ]} 500), t2) /\
      count_calls is_inference t2 = count_calls is_inference t).
Proof.
  intros Hreq H1 H2. split.
  - intros e t1 Hrun1.
    apply (compare_images_load_raises W req d ref1 ref2 e t t1 Hreq H1 H2).
    now apply (load_embeddings_first_raises W d ref1 ref2 e t t1 H1 H2).
  - intros img1 t1 e t2 Hrun1 Hrun2. split.
    + apply (compare_images_load_raises W req d ref1 ref2 e t t2 Hreq H1 H2).
      now apply (load_embeddings_second_raises W d ref1 ref2 img1 e t t1 t2 H1 H2).
    + destruct (appends_outcome _ _ _ _ (appends_image_of_ref W ref1) Hrun1)
        as [_ ->].
      destruct (appends_outcome _ _ _ _ (appends_image_of_ref W ref2) Hrun2)
        as [_ ->].
      rewrite !count_calls_app.
      destruct (image_of_ref_log W ref1) as (_ & _ & Hi1 & _).
      destruct (image_of_ref_log W ref2) as (_ & _ & Hi2 & _).
      cbn zeta in *. lia.
Qed.

(** X8.  Two embeddings of different lengths: [np.dot] raises [ValueError]
    and the reply is 500 with its message. *)
Theorem compare_images_shape_mismatch (req : request) (d : gmap string json)
        (emb1 emb2 : list spec_float) t t' :
  request_json req = Return (JObj d) ->
  is_Some (d !! "image1") ->
  is_Some (d !! "image2") ->
  load_embeddings W (JObj d) t = (Return (emb1, emb2), t') ->
  length emb1 <> length emb2 ->
  compare_images W req t =
    (Return (jsonify {[ "error" := JStr
       ("shapes (" +:+ pretty (length emb1) +:+ ",) and (" +:+
        pretty (length emb2) +:+ ",) not aligned: " +:+
        pretty (length emb1) +:+ " (dim 0) != " +:+
        pretty (length emb2) +:+ " (dim 0)") ]} 500), t').
Proof.
  intros Hreq [ref1 H1] [ref2 H2] Hload Hlen.
  unfold compare_images.
  erewrite (try_except_raise _ _ _ (shape_error (length emb1) (length emb2)) t');
    [reflexivity|].
  rewrite (compare_body_present W req d ref1 ref2 t Hreq H1 H2).
  rewrite (bind_return _ _ _ _ _ Hload). cbn [fst snd].
  unfold compare_reply, np_dot.
  destruct (Nat.eqb_spec (length emb1) (length emb2)) as [Heq|_];
    [contradiction|].
  now rewrite bind_lift_raise.
Qed.

(** X9.  Exchanging the two references of a compare request that is
    answered with status 200 gives the same reply: the terms of the dot
    product and the product of the norms do not depend on the order of
    the two embeddings, whatever the BLAS routine does with the terms
    (library calls being functions of their arguments, as in
    [world]). *)
Theorem compare_images_swap (req req' : request) (d d' : gmap string json)
        (ref1 ref2 : json) t :
  request_json req = Return (JObj d) ->
  d !! "image1" = Some ref1 ->
  d !! "image2" = Some ref2 ->
  request_json req' = Return (JObj d') ->
  d' !! "image1" = Some ref2 ->
  d' !! "image2" = Some ref1 ->
  status_of (fst (compare_images W req t)) = Some 200 ->
  fst (compare_images W req' t) = fst (compare_images W req t).
Proof.
  intros Hreq H1 H2 Hreq' H1' H2'.
  unfold compare_images. rewrite !fst_try_except.
  pose proof (compare_body_cases W req t) as Hcases.
  destruct (fst (compare_body W req t)) as [resp|e|cls msg];
    cbn [status_of]; try discriminate.
  intros [= Hst].
  destruct Hcases as [[-> _]|(emb1 & emb2 & Hcmp & Hlen & ->)]; [discriminate|].
  assert (Hcmp' : Spec.compared W req' emb2 emb1).
  { destruct Hcmp as [data r1 r2 img1 img2 Hd _ Hg1 Hr1 Hg2 Hr2 He1 He2].
    rewrite Hreq in Hd. injection Hd as <-.
    rewrite (getitem_dict_present _ _ _ H1) in Hg1. injection Hg1 as <-.
    rewrite (getitem_dict_present _ _ _ H2) in Hg2. injection Hg2 as <-.
    eapply (Spec.compared_intro W req' emb2 emb1 (JObj d') ref2 ref1 img2 img1);
      try assumption.
    - split; eapply contains_dict_present; eassumption.
    - now apply getitem_dict_present.
    - now apply getitem_dict_present. }
  rewrite (compared_compare_body W req' emb2 emb1 t Hcmp').
  apply eq_sym, Nat.eqb_eq in Hlen. rewrite Hlen.
  now rewrite (cosine_similarity_comm W emb2 emb1).
Qed.
End CompareFailures.

(** ** Signs of the score *)

Lemma binary_round_aux_opp (prec emax : Z) (s : bool) (m e : Z) (l : location) :
  binary_round_aux prec emax (negb s) m e l =
  SFopp (binary_round_aux prec emax s m e l).
Proof.
  unfold binary_round_aux.
  destruct (shr_fexp prec emax m e l) as [mrs' e'].
  destruct (shr_fexp prec emax _ e' loc_Exact) as [mrs'' e''].
  destruct (shr_m mrs'') as [|p|p]; try reflexivity.
  destruct (Z.leb e'' (emax - prec)); reflexivity.
Qed.

Lemma Binary64_mul_hundred_opp (x : spec_float) :
  Binary64.mul (SFopp x) Binary64.hundred =
  SFopp (Binary64.mul x Binary64.hundred).
Proof.
  unfold Binary64.mul, Binary64.hundred, SFmul.
  destruct x as [s|s| |s m e]; cbn [SFopp].
  - destruct s; reflexivity.
  - destruct s; reflexivity.
  - reflexivity.
  - rewrite !xorb_false_r. apply binary_round_aux_opp.
Qed.

Lemma py_round_opp (x : spec_float) (ndigits : nat) :
  py_round (SFopp x) ndigits = SFopp (py_round x ndigits).
Proof.
  destruct x as [s|s| |s m e]; try reflexivity.
  cbn [SFopp py_round].
  destruct (decimal_digits m e ndigits) as [|k|k]; try reflexivity.
  unfold Binary64.div, SFdiv.
  destruct (SFdiv_core_binary _ _ _ _ _ _) as [[mz ez] lz].
  rewrite !xorb_false_r. apply binary_round_aux_opp.
Qed.

(** X15.  The percentage of the opposite score is the opposite percentage:
    the multiplication by 100 and [round] both act on the magnitude and
    keep the sign, also on zeros and infinities. *)
Theorem percentage_opp (similarity : spec_float) :
  percentage (SFopp similarity) = SFopp (percentage similarity).
Proof.
  unfold percentage. now rewrite Binary64_mul_hundred_opp, py_round_opp.
Qed.

(** ** Network use *)

Section Network.
Context {Image : Type} (W : world Image).
Implicit Types t : list (event Image).

Lemma get_image_from_base64_no_fetch (s : json) t :
  count_calls is_fetch (snd (get_image_from_base64 W s t)) = count_calls is_fetch t.
Proof.
  unfold get_image_from_base64, bind, call.
  destruct (b64decode W s) as [data|e|cls msg]; cbn [snd];
    rewrite !count_calls_app; cbn; lia.
Qed.

(** X13.  Inline images never touch the network: an embed request with an
    ["image"] field, and a compare request whose two references both
    have a ["base64"] key, make no [requests.get] call, whatever else
    the request holds and however the request ends. *)
Theorem inline_images_never_fetch (req : request) (d : gmap string json) t :
  request_json req = Return (JObj d) ->
  (forall v, d !! "image" = Some v ->
     count_calls is_fetch (snd (embed_image W req t)) = count_calls is_fetch t) /\
  (forall r1 r2 b1 b2,
     d !! "image1" = Some (JObj r1) -> d !! "image2" = Some (JObj r2) ->
     r1 !! "base64" = Some b1 -> r2 !! "base64" = Some b2 ->
     count_calls is_fetch (snd (compare_images W req t)) = count_calls is_fetch t).
Proof.
  intros Hreq. split.
  - intros v Hv. unfold embed_image. rewrite snd_try_except.
    rewrite (embed_body_inline W req d v t Hreq Hv).
    unfold get_image_from_base64, embed_reply, encode, bind, call, ret.
    destruct (b64decode W v) as [bytes|e|cls msg];
      [destruct (Image_open W bytes) as [image|e|cls msg];
       [destruct (model_encode W image) as [emb|e|cls msg]|..]|..];
      cbn [snd]; rewrite !count_calls_app; cbn; lia.
  - intros r1 r2 b1 b2 H1 H2 Hb1 Hb2. unfold compare_images.
    rewrite snd_try_except.
    rewrite (compare_body_present W req d _ _ t Hreq H1 H2).
    assert (Hload : count_calls is_fetch (snd (load_embeddings W (JObj d) t)) =
                    count_calls is_fetch t).
    { rewrite (load_embeddings_present W d _ _ t H1 H2).
      pose proof (get_image_from_base64_no_fetch b1 t) as Hf1.
      rewrite <- (image_of_ref_inline W r1 b1 t Hb1) in Hf1.
      destruct (image_of_ref W (JObj r1) t) as [[img1|e|cls msg] t1] eqn:Hrun1;
        cbn [snd] in Hf1.
      2: { now rewrite (bind_raise _ _ _ _ _ Hrun1). }
      2: { now rewrite (bind_raisebase _ _ _ _ _ _ Hrun1). }
      rewrite (bind_return _ _ _ _ _ Hrun1).
      pose proof (get_image_from_base64_no_fetch b2 t1) as Hf2.
      rewrite <- (image_of_ref_inline W r2 b2 t1 Hb2) in Hf2.
      destruct (image_of_ref W (JObj r2) t1) as [[img2|e|cls msg] t2] eqn:Hrun2;
        cbn [snd] in Hf2.
      2: { rewrite (bind_raise _ _ _ _ _ Hrun2). cbn [snd]. lia. }
      2: { rewrite (bind_raisebase _ _ _ _ _ _ Hrun2). cbn [snd]. lia. }
      rewrite (bind_return _ _ _ _ _ Hrun2).
      unfold encode, bind, call, ret.
      destruct (model_encode W img1) as [emb1|e|cls msg];
        [destruct (model_encode W img2) as [emb2|e|cls msg]|..];
        cbn [snd]; rewrite !count_calls_app; cbn; lia. }
    destruct (load_embeddings W (JObj d) t) as [[embs|e|cls msg] t1] eqn:Hrun;
      cbn [snd] in Hload.
    + rewrite (bind_return _ _ _ _ _ Hrun), compare_reply_run.
      destruct (np_dot W (fst embs) (snd embs)); exact Hload.
    + rewrite (bind_raise _ _ _ _ _ Hrun). exact Hload.
    + rewrite (bind_raisebase _ _ _ _ _ _ Hrun). exact Hload.
Qed.

(** X14.  A remote image is fetched once: an embed request resolved from
    ["imageUrl"] makes exactly one [requests.get] call, for that
    address and with [timeout=10], as its first library call, whether
    the fetch, the decoding or the model then fails or not. *)
Theorem remote_image_fetched_once (req : request) (d : gmap string json)
        (url : json) t :
  request_json req = Return (JObj d) ->
  d !! "image" = None ->
  d !! "imageUrl" = Some url ->
  exists rest,
    snd (embed_image W req t) = t ++ Call_requests_get url 10 :: rest /\
    count_calls is_fetch rest = 0%nat /\
    count_calls is_decode rest = 0%nat.
Proof.
  intros Hreq Hi Hu. unfold embed_image. rewrite snd_try_except.
  rewrite (embed_body_remote W req d url t Hreq Hi Hu).
  unfold get_image_from_url, embed_reply, encode, bind, call, ret.
  destruct (requests_get W url 10) as [r|e|cls msg];
    [destruct (Image_open W (content r)) as [image|e|cls msg];
     [destruct (model_encode W image) as [emb|e|cls msg]|..]|..];
    cbn [snd]; rewrite <- ?app_assoc; cbn [app];
    eexists; (split; [reflexivity|]); split; reflexivity.
Qed.
End Network.

(** ** Runs in the sample worlds *)

Import Sample.



Lemma sample_embedded (emb : list spec_float) :
  Spec.embedded (sample_world emb) (post {[ "image" := JStr png_base64 ]}) png emb.
Proof.
  apply (Spec.embedded_intro _ _ _ _
           (JObj {[ "image" := JStr png_base64 ]})
           (Spec.Inline (JStr png_base64))); try reflexivity.
  - apply Spec.embed_inline; reflexivity.
  - apply (Spec.opens_inline _ _ png png); reflexivity.
Qed.

(** C10, on a request whose first reference is an empty object. *)
Lemma compare_images_references_witness :
  compare_images (sample_world ones)
    (post {[ "image1" := JObj ∅; "image2" := inline_ref ]}) [] =
    (Return (jsonify {[ "error" := JStr "'url'" ]} 500), []).
Proof.
  destruct (compare_images_references (sample_world ones)
              (post {[ "image1" := JObj ∅; "image2" := inline_ref ]})
              {[ "image1" := JObj ∅; "image2" := inline_ref ]}
              (JObj ∅) inline_ref []) as [H _]; [reflexivity..|].
  apply (H ∅); reflexivity.
Defined.

(** C3 fails as stated: a request with both fields is accepted.  The
    reply is the 200 of the same request without ["imageUrl"], and the
    address, which this world cannot reach, is never fetched. *)
Lemma embed_image_both_fields_accepted :
  let both := post {[ "image" := JStr png_base64;
                      "imageUrl" := JStr "http://img.test/gone.png" ]} in
  let r := embed_image (sample_world ones) both [] in
  requests_get (sample_world ones) (JStr "http://img.test/gone.png") 10 =
    Raise (LibraryError "requests.exceptions.ConnectionError"
             "Failed to establish a new connection") /\
  status_of (fst r) = Some 200 /\
  r = embed_image (sample_world ones) (post {[ "image" := JStr png_base64 ]}) [] /\
  snd r = [Call_b64decode (JStr png_base64); Call_Image_open png;
           Call_model_encode png].
Proof. vm_compute. repeat split. Qed.

(** C3, at the same request. *)
Lemma embed_image_inline_wins_witness :
  embed_image (sample_world ones)
    (post {[ "image" := JStr png_base64;
             "imageUrl" := JStr "http://img.test/gone.png" ]}) [] =
  embed_image (sample_world ones)
    {| request_json := Return (JObj (delete "imageUrl"
         {[ "image" := JStr png_base64;
            "imageUrl" := JStr "http://img.test/gone.png" ]})) |} [].
Proof.
  apply (embed_image_inline_wins (sample_world ones)
           (post {[ "image" := JStr png_base64;
                    "imageUrl" := JStr "http://img.test/gone.png" ]})
           {[ "image" := JStr png_base64;
              "imageUrl" := JStr "http://img.test/gone.png" ]}
           (JStr png_base64) []); reflexivity.
Defined.

(** C2 fails as stated: the server answers 404, the body of that answer
    is opened as an image, and the request succeeds with its embedding;
    the same happens for a reference of a compare request. *)
Lemma embed_image_accepts_404_body :
  let r := embed_image (sample_world ones)
             (post {[ "imageUrl" := JStr missing_url ]}) [] in
  let c := compare_images (sample_world three_four)
             (post {[ "image1" := remote_ref; "image2" := remote_ref ]}) [] in
  requests_get (sample_world ones) (JStr missing_url) 10 =
    Return {| status_code := 404; content := png |} /\
  fst r =
    Return (jsonify {[ "embedding" := JArr [JFloat (float Binary32.one);
                                             JFloat (float Binary32.one)];
                       "dimension" := JInt 2 ]} 200) /\
  snd r = [Call_requests_get (JStr missing_url) 10; Call_Image_open png;
           Call_model_encode png] /\
  status_of (fst c) = Some 200 /\
  snd c = [Call_requests_get (JStr missing_url) 10; Call_Image_open png;
           Call_requests_get (JStr missing_url) 10; Call_Image_open png;
           Call_model_encode png; Call_model_encode png].
Proof. vm_compute. repeat split. Qed.

(** C2, at the same requests. *)
Lemma remote_reference_status_unchecked_witness :
  embed_image (sample_world ones) (post {[ "imageUrl" := JStr missing_url ]}) [] =
    try_except (embed_reply (sample_world ones) png)
      (fun e => jsonify {[ "error" := JStr (str e) ]} 500)
      ([] ++ [Call_requests_get (JStr missing_url) 10; Call_Image_open png]) /\
  image_of_ref (sample_world ones) remote_ref [] =
    (Return png, [] ++ [Call_requests_get (JStr missing_url) 10; Call_Image_open png]) /\
  compare_images (sample_world ones)
    (post {[ "image1" := inline_ref;
             "image2" := JObj {[ "url" := JStr "http://img.test/gone.png" ]} ]}) [] =
    (Return (jsonify {[ "error" := JStr "Failed to establish a new connection" ]} 500),
     [Call_b64decode (JStr png_base64); Call_Image_open png]
       ++ [Call_requests_get (JStr "http://img.test/gone.png") 10]).
Proof.
  destruct (remote_reference_status_unchecked (sample_world ones))
    as (Hembed & Hfirst & Hsecond).
  split; [|split].
  - destruct (Hembed (post {[ "imageUrl" := JStr missing_url ]})
                {[ "imageUrl" := JStr missing_url ]} (JStr missing_url) [])
      as (_ & _ & H); [reflexivity..|].
    apply (H {| status_code := 404; content := png |} png); reflexivity.
  - destruct (Hfirst (post {[ "image1" := remote_ref; "image2" := inline_ref ]})
                {[ "image1" := remote_ref; "image2" := inline_ref ]}
                remote_ref inline_ref {[ "url" := JStr missing_url ]}
                (JStr missing_url) [])
      as (_ & _ & H); [reflexivity..|].
    apply (H {| status_code := 404; content := png |} png); reflexivity.
  - destruct (Hsecond
                (post {[ "image1" := inline_ref;
                         "image2" := JObj {[ "url" := JStr "http://img.test/gone.png" ]} ]})
                {[ "image1" := inline_ref;
                   "image2" := JObj {[ "url" := JStr "http://img.test/gone.png" ]} ]}
                inline_ref (JObj {[ "url" := JStr "http://img.test/gone.png" ]})
                png {[ "url" := JStr "http://img.test/gone.png" ]}
                (JStr "http://img.test/gone.png") []
                [Call_b64decode (JStr png_base64); Call_Image_open png])
      as (H & _ & _); [reflexivity..|].
    apply (H (LibraryError "requests.exceptions.ConnectionError"
                "Failed to establish a new connection")).
    reflexivity.
Defined.

(** C1 fails as stated: both embeddings are the zero vector, their norm
    is zero, the quotient is NaN and the reply is a 200 that carries it;
    no exception reaches the handler's [except]. *)
Lemma compare_images_zero_norm_no_error :
  let r := compare_images (sample_world zeros) (post both_inline) [] in
  np_linalg_norm (sample_world zeros) zeros = S754_zero false /\
  cosine_similarity (sample_world zeros) zeros zeros = S754_nan /\
  r = (Return (jsonify {[ "similarity" := JFloat S754_nan;
                          "percentage" := JFloat S754_nan ]} 200),
       both_inline_calls) /\
  status_of (fst r) <> Some 500.
Proof. vm_compute. repeat split. discriminate. Qed.

(** C1, at the same request. *)
Lemma compare_images_zero_norm_witness :
  exists s,
    is_finite s = false /\
    s = cosine_similarity (sample_world zeros) zeros zeros /\
    compare_images (sample_world zeros) (post both_inline) [] =
      (Return (jsonify {[ "similarity" := JFloat s; "percentage" := JFloat s ]} 200),
       both_inline_calls).
Proof.
  apply (compare_images_zero_norm (sample_world zeros) (post both_inline)
           both_inline zeros zeros [] both_inline_calls).
  - reflexivity.
  - exists inline_ref. reflexivity.
  - exists inline_ref. reflexivity.
  - reflexivity.
  - reflexivity.
  - left. reflexivity.
Defined.


(** C7, at two different vectors of length two. *)
Lemma similarity_symmetric_witness :
  compare_reply (sample_world ones) [Binary32.one; Binary32.zero] ones [] =
  compare_reply (sample_world ones) ones [Binary32.one; Binary32.zero] [].
Proof.
  apply (proj2 (similarity_symmetric (sample_world ones)
                  [Binary32.one; Binary32.zero] ones)).
  reflexivity.
Defined.




(** A model that leaves by [sys.exit(1)] is not caught: the embed
    request ends in [SystemExit], after the three library calls, and no
    response is returned. *)
Example embed_image_system_exit :
  embed_image exiting_world (post {[ "image" := JStr png_base64 ]}) [] =
    (RaiseBase "SystemExit" "1",
     [Call_b64decode (JStr png_base64); Call_Image_open png;
      Call_model_encode png]).
Proof. reflexivity. Qed.

(** X1, at an embed request with an inline image. *)
Lemma embed_image_success_witness :
  fst (embed_image (sample_world ones) (post {[ "image" := JStr png_base64 ]}) []) =
    Return (jsonify {[ "embedding" := JArr (map JFloat (map float ones));
                       "dimension" := JInt (Z.of_nat (length ones)) ]} 200).
Proof.
  apply (proj2 (embed_image_success (sample_world ones)
                  (post {[ "image" := JStr png_base64 ]}) []) png ones).
  apply sample_embedded.
Defined.

Lemma embed_image_same_bytes_witness :
  fst (embed_image (sample_world ones)
         (post {[ "image" := JStr png_base64 ]}) []) =
  fst (embed_image (sample_world ones)
         (post {[ "imageUrl" := JStr missing_url ]}) []).
Proof.
  apply (embed_image_same_bytes (sample_world ones)
           (post {[ "image" := JStr png_base64 ]})
           (post {[ "imageUrl" := JStr missing_url ]})
           {[ "image" := JStr png_base64 ]}
           {[ "imageUrl" := JStr missing_url ]}
           (JStr png_base64) (JStr missing_url)
           {| status_code := 404; content := png |} []); reflexivity.
Defined.

Lemma scalar_body_rejected_witness :
  (status_of (fst (embed_image (sample_world ones)
                     {| request_json := Return JNull |} [])) = Some 500 /\
   snd (embed_image (sample_world ones) {| request_json := Return JNull |} []) = []) /\
  (status_of (fst (compare_images (sample_world ones)
                     {| request_json := Return JNull |} [])) = Some 500 /\
   snd (compare_images (sample_world ones) {| request_json := Return JNull |} []) = []).
Proof.
  apply (scalar_body_rejected (sample_world ones)
           {| request_json := Return JNull |} []).
  right. exists JNull. split; reflexivity.
Defined.

Lemma embed_image_sequence_body_witness :
  status_of (fst (embed_image (sample_world ones)
                    {| request_json := Return (JArr [JStr "image"]) |} [])) =
    Some 500.
Proof.
  destruct (embed_image_sequence_body (sample_world ones)
              {| request_json := Return (JArr [JStr "image"]) |}
              (JArr [JStr "image"]) [] eq_refl eq_refl) as (_ & _ & H).
  apply H. left. reflexivity.
Defined.

Lemma compare_images_sequence_body_witness :
  fst (compare_images (sample_world ones)
         {| request_json := Return (JStr "image1 only") |} []) =
    Return (jsonify {[ "error" := JStr "Both images required" ]} 400).
Proof.
  destruct (compare_images_sequence_body (sample_world ones)
              {| request_json := Return (JStr "image1 only") |}
              (JStr "image1 only") [] eq_refl eq_refl) as (_ & H & _).
  apply H. right. split; reflexivity.
Defined.

Lemma compare_images_first_failure_witness :
  compare_images two_image_world
    (post {[ "image1" := broken_ref; "image2" := jpeg_ref ]}) [] =
    (Return (jsonify {[ "error" := JStr "Incorrect padding" ]} 500),
     [Call_b64decode (JStr "ab")]).
Proof.
  destruct (compare_images_first_failure two_image_world
              (post {[ "image1" := broken_ref; "image2" := jpeg_ref ]})
              {[ "image1" := broken_ref; "image2" := jpeg_ref ]}
              broken_ref jpeg_ref []) as [H _]; [reflexivity..|].
  apply (H (LibraryError "binascii.Error" "Incorrect padding")
           [Call_b64decode (JStr "ab")]).
  reflexivity.
Defined.

Lemma compare_images_shape_mismatch_witness :
  compare_images two_image_world
    (post {[ "image1" := inline_ref; "image2" := jpeg_ref ]}) [] =
    (Return (jsonify {[ "error" := JStr
       "shapes (2,) and (3,) not aligned: 2 (dim 0) != 3 (dim 0)" ]} 500),
     [Call_b64decode (JStr png_base64); Call_Image_open png;
      Call_b64decode (JStr jpeg_base64); Call_Image_open jpeg;
      Call_model_encode png; Call_model_encode jpeg]).
Proof.
  apply (compare_images_shape_mismatch two_image_world
           (post {[ "image1" := inline_ref; "image2" := jpeg_ref ]})
           {[ "image1" := inline_ref; "image2" := jpeg_ref ]} ones zeros []).
  - reflexivity.
  - exists inline_ref. reflexivity.
  - exists jpeg_ref. reflexivity.
  - reflexivity.
  - discriminate.
Defined.

Lemma compare_images_swap_witness :
  fst (compare_images (sample_world ones)
         (post {[ "image1" := remote_ref; "image2" := inline_ref ]}) []) =
  fst (compare_images (sample_world ones)
         (post {[ "image1" := inline_ref; "image2" := remote_ref ]}) []).
Proof.
  apply (compare_images_swap (sample_world ones)
           (post {[ "image1" := inline_ref; "image2" := remote_ref ]})
           (post {[ "image1" := remote_ref; "image2" := inline_ref ]})
           {[ "image1" := inline_ref; "image2" := remote_ref ]}
           {[ "image1" := remote_ref; "image2" := inline_ref ]}
           inline_ref remote_ref []); reflexivity.
Defined.

Lemma compare_images_calls_witness :
  exists new,
    snd (compare_images (sample_world ones) (post both_inline) []) = [] ++ new /\
    follows [is_resolver_call; is_open; is_resolver_call; is_open;
             is_inference; is_inference] new = true /\
    (length new <= 6)%nat /\
    (count_calls is_decode new + count_calls is_fetch new <= 2)%nat /\
    (count_calls is_open new
     <= count_calls is_decode new + count_calls is_fetch new)%nat /\
    (count_calls is_inference new <= 2)%nat /\
    timeouts_are_10 new = true /\
    ((0 < count_calls is_inference new)%nat -> count_calls is_open new = 2%nat).
Proof.
  exact (compare_images_calls (sample_world ones) (post both_inline) []).
Defined.

Lemma status_reflects_calls_witness :
  exists new,
    snd (compare_images (sample_world ones) (post both_inline) []) = [] ++ new /\
    length new = 6%nat /\
    count_calls is_open new = 2%nat /\ count_calls is_inference new = 2%nat.
Proof.
  destruct (status_reflects_calls (sample_world ones) (post both_inline) [])
    as (_ & _ & _ & H).
  apply H. reflexivity.
Defined.

Lemma inline_images_never_fetch_witness :
  count_calls is_fetch
    (snd (compare_images two_image_world
            (post {[ "image1" := inline_ref; "image2" := jpeg_ref ]}) [])) =
  count_calls is_fetch (@nil (event (list Byte.byte))).
Proof.
  destruct (inline_images_never_fetch two_image_world
              (post {[ "image1" := inline_ref; "image2" := jpeg_ref ]})
              {[ "image1" := inline_ref; "image2" := jpeg_ref ]} [] eq_refl)
    as [_ H].
  apply (H {[ "base64" := JStr png_base64 ]} {[ "base64" := JStr jpeg_base64 ]}
           (JStr png_base64) (JStr jpeg_base64)); reflexivity.
Defined.

Lemma remote_image_fetched_once_witness :
  exists rest,
    snd (embed_image two_image_world
           (post {[ "imageUrl" := JStr missing_url ]}) []) =
      [] ++ Call_requests_get (JStr missing_url) 10 :: rest /\
    count_calls is_fetch rest = 0%nat /\
    count_calls is_decode rest = 0%nat.
Proof.
  apply (remote_image_fetched_once two_image_world
           (post {[ "imageUrl" := JStr missing_url ]})
           {[ "imageUrl" := JStr missing_url ]} (JStr missing_url) []);
    reflexivity.
Defined.

Lemma embed_image_bad_base64_witness :
  embed_image two_image_world
    (post {[ "image" := JStr "ab"; "imageUrl" := JStr missing_url ]}) [] =
    (Return (jsonify {[ "error" := JStr "Incorrect padding" ]} 500),
     [] ++ [Call_b64decode (JStr "ab")]).
Proof.
  apply (embed_image_bad_base64 two_image_world
           (post {[ "image" := JStr "ab"; "imageUrl" := JStr missing_url ]})
           {[ "image" := JStr "ab"; "imageUrl" := JStr missing_url ]}
           (JStr "ab") (LibraryError "binascii.Error" "Incorrect padding") []);
    reflexivity.
Defined.
